(** * ipsa_sched: a shallow embedding of [ipsa_sched.c]

    The C file configures a FreeRTOS demo: [ipsa_sched] creates a queue, a
    software timer and four periodic tasks and starts the scheduler; the
    tasks print, convert a temperature, multiply two constants and run a
    binary search.  The definitions below follow the C text function by
    function; the kernel primitives the file only calls are modelled from
    the specification and are marked as such. *)

From Stdlib Require Import ZArith List Lia Bool Sorted Ascii String QArith.
From Stdlib Require Import Floats.SpecFloat.
Import ListNotations.

Local Open Scope Z_scope.

(** ** Machine integers *)

Module C.

(** A signed [bits]-wide integer in two's complement: the value of [x]
    reduced into [-2^(bits-1) .. 2^(bits-1) - 1]. *)
Definition wrap_signed (bits x : Z) : Z :=
  (x + 2 ^ (bits - 1)) mod 2 ^ bits - 2 ^ (bits - 1).

(** An unsigned [bits]-wide integer. *)
Definition wrap_unsigned (bits x : Z) : Z := x mod 2 ^ bits.

(** [int] is 32 bits wide, [long int] 64 bits (LP64, the Linux port the
    demo is written for), [uint32_t] 32 bits. *)
Definition int (x : Z) : Z := wrap_signed 32 x.
Definition long_int (x : Z) : Z := wrap_signed 64 x.
Definition uint32_t (x : Z) : Z := wrap_unsigned 32 x.

Definition INT_MAX : Z := 2 ^ 31 - 1.
Definition INT_MIN : Z := - 2 ^ 31.
Definition LONG_MAX : Z := 2 ^ 63 - 1.
Definition LONG_MIN : Z := - 2 ^ 63.

(** [sizeof(uint32_t)], in bytes. *)
Definition sizeof_uint32_t : Z := 4.

End C.

(** ** [binarySearch] *)

Module Search.

(** What a call of [binarySearch] can do.  [FallsOffEnd] is control
    reaching the closing brace of the non-void function: no [return]
    statement was executed and the call has no defined value.
    [ReadOutOfBounds] is a read of [arr[mid]] outside the array, and
    [OutOfFuel] belongs to the model only. *)
Inductive outcome : Type :=
| Returns (v : Z)
| FallsOffEnd
| ReadOutOfBounds
| OutOfFuel.

(** [arr[i]] for an array held as a list. *)
Definition index (arr : list Z) (i : Z) : option Z :=
  if i <? 0 then None else nth_error arr (Z.to_nat i).

(** One pass through the body of the [while] loop. *)
Inductive iteration : Type :=
| Return (v : Z)
| Next (left right : Z)
| BadIndex.

Definition loop_body (arr : list Z) (target left right : Z) : iteration :=
  let mid := C.int (left + Z.quot (C.int (right - left)) 2) in
  match index arr mid with
  | None => BadIndex
  | Some a =>
      if a =? target then Return 0
      else if a <? target then Next (C.int (mid + 1)) right
      else Next left (C.int (mid - 1))
  end.

(** [while (left <= right) { ... }] *)
Fixpoint while_loop (fuel : nat) (arr : list Z) (target left right : Z)
  : outcome :=
  if left <=? right then
    match fuel with
    | O => OutOfFuel
    | S fuel' =>
        match loop_body arr target left right with
        | Return v => Returns v
        | Next left' right' => while_loop fuel' arr target left' right'
        | BadIndex => ReadOutOfBounds
        end
    end
  else FallsOffEnd.

(** The loop is entered with [right - left + 1] candidate positions;
    that many iterations are granted. *)
Definition binarySearch (arr : list Z) (size target : Z) : outcome :=
  let left := 0 in
  let right := C.int (size - 1) in
  while_loop (Z.to_nat (right - left + 1)) arr target left right.

(** The middle position [left + (right - left) / 2] over the integers,
    without the reductions to [int]; the loop lemmas relate [mid] to
    it. *)
Definition middle (left right : Z) : Z := left + (right - left) / 2.

(** The array of [Task4] and its target. *)
Definition elements : list Z :=
  [2; 4; 7; 12; 15; 20; 22; 25; 28; 30;
   32; 35; 40; 42; 45; 48; 50; 55; 60; 62;
   65; 70; 75; 80; 82; 85; 88; 90; 92; 95;
   100; 105; 110; 112; 115; 118; 120; 122; 125; 130;
   135; 140; 145; 150; 155; 160; 165; 170; 175; 180].

Definition targetElement : Z := 15.

End Search.

(** ** The kernel the file is written against *)

Module Kernel.

(** Declarations of the kernel headers that the C file uses and does not
    define: the width of [TickType_t], the [pdMS_TO_TICKS] macro,
    [configMINIMAL_STACK_SIZE] and [tskIDLE_PRIORITY]. *)
Record Config : Type := {
  tick_bits : Z;
  pdMS_TO_TICKS : Z -> Z;
  configMINIMAL_STACK_SIZE : Z;
  tskIDLE_PRIORITY : Z
}.

(** A value of type [TickType_t]: unsigned, [tick_bits] wide. *)
Definition TickType_t (cfg : Config) (x : Z) : Z :=
  C.wrap_unsigned (tick_bits cfg) x.

Definition pdTRUE : bool := true.

(** *** Bounded queue *)

Record Queue : Type := {
  capacity : Z;
  item_size : Z;
  items : list Z
}.

Definition count (q : Queue) : Z := Z.of_nat (List.length (items q)).

Inductive status : Type :=
| Success
| FailedImmediately
| Blocks (maxWaitTicks : Z).

(** Modelled from the spec: the queue that [xQueueCreate], a kernel
    function that is not in the file, hands out.  It has the requested
    capacity and element size and holds nothing. *)
Definition new_queue (uxQueueLength uxItemSize : Z) : Queue :=
  {| capacity := uxQueueLength; item_size := uxItemSize; items := [] |}.

(** Modelled from the spec: [xQueueSend] is a kernel function that is not
    in the file.  With room the value, [item_size] bytes of it, is put
    at the back; on a full queue a send with zero wait fails at once
    and leaves the queue as it was, a send with a wait blocks. *)
Definition send (q : Queue) (value maxWaitTicks : Z) : status * Queue :=
  if count q <? capacity q then
    (Success,
     {| capacity := capacity q; item_size := item_size q;
        items := items q ++ [C.wrap_unsigned (8 * item_size q) value] |})
  else if maxWaitTicks =? 0 then (FailedImmediately, q)
  else (Blocks maxWaitTicks, q).

(** Modelled from the spec: [xQueueReceive] is a kernel function that is
    not in the file.  It takes the value at the front; on an empty
    queue it is symmetric to [send]. *)
Definition receive (q : Queue) (maxWaitTicks : Z)
  : status * option Z * Queue :=
  match items q with
  | v :: rest =>
      (Success, Some v,
       {| capacity := capacity q; item_size := item_size q;
          items := rest |})
  | [] =>
      if maxWaitTicks =? 0 then (FailedImmediately, None, q)
      else (Blocks maxWaitTicks, None, q)
  end.

Inductive queue_op : Type :=
| OpSend (value maxWaitTicks : Z)
| OpReceive (maxWaitTicks : Z).

Definition apply_op (q : Queue) (op : queue_op) : Queue :=
  match op with
  | OpSend v w => snd (send q v w)
  | OpReceive w => snd (receive q w)
  end.

Definition apply_ops (q : Queue) (ops : list queue_op) : Queue :=
  fold_left apply_op ops q.

(** The shape of the queue of this program: four slots of four bytes,
    no more values than slots, every value a 32-bit unsigned one. *)
Definition four_slots (q : Queue) : Prop :=
  capacity q = 4 /\ item_size q = 4 /\ 0 <= count q <= 4 /\
  Forall (fun v => 0 <= v < 2 ^ 32) (items q).

(** *** Software timer and tasks *)

Inductive callback : Type := PrvQueueSendTimerCallback.

Record Timer : Type := {
  timer_name : string;
  timer_period : Z;
  auto_reload : bool;
  timer_callback : callback;
  active : bool
}.

Inductive task_code : Type := CodeTask1 | CodeTask2 | CodeTask3 | CodeTask4.

Record Task : Type := {
  task_body : task_code;
  task_name : string;
  stack_depth : Z;
  priority : Z
}.

(** Modelled from the spec: [vTaskDelayUntil] is a kernel function that
    is not in the file.  The caller is suspended until the tick
    [*pxPreviousWakeTime + xTimeIncrement], computed from the last wake
    time and not from the current tick, in [TickType_t] arithmetic; that
    tick is stored back through [pxPreviousWakeTime].  The result is the
    stored value. *)
Definition vTaskDelayUntil (cfg : Config)
    (pxPreviousWakeTime xTimeIncrement : Z) : Z :=
  TickType_t cfg (pxPreviousWakeTime + xTimeIncrement).

(** *** State of the system and the calls made on the kernel *)

Inductive call : Type :=
| CallQueueCreate (uxQueueLength uxItemSize : Z)
| CallTimerCreate (name : string) (period : Z) (autoReload : bool)
    (cb : callback)
| CallTimerStart (xTicksToWait : Z)
| CallTaskCreate (code : task_code) (name : string) (stack prio : Z)
| CallStartScheduler
| CallQueueSend (value xTicksToWait : Z) (result : status).

Definition is_queue_create (c : call) : bool :=
  match c with CallQueueCreate _ _ => true | _ => false end.

Inductive phase : Type := Startup | SchedulerRunning | IdleLoop.

(** [xQueue] and [xTimer] are the two file-scope handles; [NULL] is
    [None]. *)
Record System : Type := {
  xQueue : option Queue;
  xTimer : option Timer;
  tasks : list Task;
  where_ : phase;
  calls : list call
}.

Definition boot : System :=
  {| xQueue := None; xTimer := None; tasks := []; where_ := Startup;
     calls := [] |}.

(** Which creations the kernel can satisfy (heap available or not), and
    whether [vTaskStartScheduler] gets the scheduler going. *)
Record Env : Type := {
  queue_available : bool;
  timer_available : bool;
  task_available : task_code -> bool;
  scheduler_available : bool
}.

(** Code that runs on the system: it changes the state and either comes
    back with a value or never returns to its caller. *)
Inductive flow (A : Type) : Type :=
| Continues (a : A)
| NeverReturns.
Arguments Continues {A} a.
Arguments NeverReturns {A}.

Definition kernel (A : Type) : Type := System -> flow A * System.

Definition ret {A : Type} (a : A) : kernel A := fun s => (Continues a, s).

Definition bind {A B : Type} (m : kernel A) (f : A -> kernel B)
  : kernel B :=
  fun s =>
    match m s with
    | (Continues a, s') => f a s'
    | (NeverReturns, s') => (NeverReturns, s')
    end.

Definition record (c : call) (s : System) : System :=
  {| xQueue := xQueue s; xTimer := xTimer s; tasks := tasks s;
     where_ := where_ s; calls := calls s ++ [c] |}.

Definition with_queue (q : option Queue) (s : System) : System :=
  {| xQueue := q; xTimer := xTimer s; tasks := tasks s;
     where_ := where_ s; calls := calls s |}.

Definition with_timer (t : option Timer) (s : System) : System :=
  {| xQueue := xQueue s; xTimer := t; tasks := tasks s;
     where_ := where_ s; calls := calls s |}.

Definition with_tasks (ts : list Task) (s : System) : System :=
  {| xQueue := xQueue s; xTimer := xTimer s; tasks := ts;
     where_ := where_ s; calls := calls s |}.

Definition at_phase (p : phase) (s : System) : System :=
  {| xQueue := xQueue s; xTimer := xTimer s; tasks := tasks s;
     where_ := p; calls := calls s |}.

(** Modelled from the spec: [xQueueCreate] is a kernel function that is
    not in the file.  A creation that cannot be satisfied hands back
    [NULL]. *)
Definition xQueueCreate (env : Env) (uxQueueLength uxItemSize : Z)
  : kernel (option Queue) :=
  fun s =>
    (Continues (if queue_available env
                then Some (new_queue uxQueueLength uxItemSize)
                else None),
     record (CallQueueCreate uxQueueLength uxItemSize) s).

(** Modelled from the spec: [xTimerCreate] is a kernel function that is
    not in the file.  A created timer has the period, mode and callback
    asked for and is not started. *)
Definition xTimerCreate (env : Env) (name : string) (period : Z)
    (autoReload : bool) (cb : callback) : kernel (option Timer) :=
  fun s =>
    (Continues (if timer_available env
                then Some {| timer_name := name; timer_period := period;
                             auto_reload := autoReload;
                             timer_callback := cb; active := false |}
                else None),
     record (CallTimerCreate name period autoReload cb) s).

(** Modelled from the spec: [xTimerStart] is a kernel function that is
    not in the file.  It sets the timer of the file-scope handle
    [xTimer] going. *)
Definition xTimerStart (xTicksToWait : Z) : kernel unit :=
  fun s =>
    (Continues tt,
     record (CallTimerStart xTicksToWait)
       (with_timer
          (option_map
             (fun t => {| timer_name := timer_name t;
                          timer_period := timer_period t;
                          auto_reload := auto_reload t;
                          timer_callback := timer_callback t;
                          active := true |})
             (xTimer s))
          s)).

(** Modelled from the spec: [xTaskCreate] is a kernel function that is
    not in the file.  A created task joins the fixed set of tasks; a
    failure is reported to the caller and nothing else happens. *)
Definition xTaskCreate (env : Env) (code : task_code) (name : string)
    (stack prio : Z) : kernel bool :=
  fun s =>
    let s' := record (CallTaskCreate code name stack prio) s in
    if task_available env code
    then (Continues true,
          with_tasks
            (tasks s' ++ [{| task_body := code; task_name := name;
                             stack_depth := stack; priority := prio |}])
            s')
    else (Continues false, s').

(** Modelled from the spec: [vTaskStartScheduler] is a kernel function
    that is not in the file.  It does not come back once the scheduler
    runs; it comes back when the scheduler could not be started. *)
Definition vTaskStartScheduler (env : Env) : kernel unit :=
  fun s =>
    let s' := record CallStartScheduler s in
    if scheduler_available env
    then (NeverReturns, at_phase SchedulerRunning s')
    else (Continues tt, s').

(** Modelled from the spec: [xQueueSend] on the file-scope handle
    [xQueue], with [send] above for what happens to the queue.  The
    callback that calls it exists only once the queue does. *)
Definition xQueueSend (value xTicksToWait : Z) : kernel status :=
  fun s =>
    match xQueue s with
    | Some q =>
        let (r, q') := send q value xTicksToWait in
        (Continues r,
         record (CallQueueSend value xTicksToWait r)
           (with_queue (Some q') s))
    | None =>
        (Continues FailedImmediately,
         record (CallQueueSend value xTicksToWait FailedImmediately) s)
    end.

End Kernel.

Declare Scope kernel_scope.
Delimit Scope kernel_scope with kernel.
Notation "x <- m ;; k" := (Kernel.bind m (fun x => k))
  (at level 61, m at next level, right associativity) : kernel_scope.
Notation "m ;;; k" := (Kernel.bind m (fun _ => k))
  (at level 61, right associativity) : kernel_scope.

(** ** The functions of [ipsa_sched.c] *)

Module Sched.
Import Kernel.
Local Open Scope kernel_scope.
Local Open Scope string_scope.

Definition YOUR_TASK1_PRIORITY (cfg : Config) : Z := tskIDLE_PRIORITY cfg + 1.
Definition YOUR_TASK2_PRIORITY (cfg : Config) : Z := tskIDLE_PRIORITY cfg + 2.
Definition YOUR_TASK3_PRIORITY (cfg : Config) : Z := tskIDLE_PRIORITY cfg + 3.
Definition YOUR_TASK4_PRIORITY (cfg : Config) : Z := tskIDLE_PRIORITY cfg + 4.

Definition TASK1_FREQUENCY (cfg : Config) : Z := pdMS_TO_TICKS cfg 4000.
Definition TASK2_FREQUENCY (cfg : Config) : Z := pdMS_TO_TICKS cfg 200.
Definition TASK3_FREQUENCY (cfg : Config) : Z := pdMS_TO_TICKS cfg 3000.
Definition TASK4_FREQUENCY (cfg : Config) : Z := pdMS_TO_TICKS cfg 800.

Definition mainQUEUE_LENGTH : Z := 4.
Definition mainVALUE_SENT_FROM_TASK : Z := 100.
Definition mainVALUE_SENT_FROM_TIMER : Z := 200.

(** [for (;;) { }] at the end of [ipsa_sched]. *)
Definition idle_loop : kernel unit :=
  fun s => (NeverReturns, at_phase IdleLoop s).

(** [xQueue = ...] and [xTimer = ...]. *)
Definition set_xQueue (q : option Queue) : kernel unit :=
  fun s => (Continues tt, with_queue q s).
Definition set_xTimer (t : option Timer) : kernel unit :=
  fun s => (Continues tt, with_timer t s).

Definition ipsa_sched (cfg : Config) (env : Env) : kernel unit :=
  let xTimerPeriod := TickType_t cfg 2000 in
  q <- xQueueCreate env mainQUEUE_LENGTH C.sizeof_uint32_t ;;
  set_xQueue q ;;;
  match q with
  | Some _ =>
      t <- xTimerCreate env "Timer" xTimerPeriod pdTRUE
             PrvQueueSendTimerCallback ;;
      set_xTimer t ;;;
      match t with
      | Some _ => xTimerStart 0
      | None => ret tt
      end ;;;
      xTaskCreate env CodeTask1 "Task1" (configMINIMAL_STACK_SIZE cfg)
        (YOUR_TASK1_PRIORITY cfg) ;;;
      xTaskCreate env CodeTask2 "Task2" (configMINIMAL_STACK_SIZE cfg)
        (YOUR_TASK2_PRIORITY cfg) ;;;
      xTaskCreate env CodeTask3 "Task3" (configMINIMAL_STACK_SIZE cfg)
        (YOUR_TASK3_PRIORITY cfg) ;;;
      xTaskCreate env CodeTask4 "Task4" (configMINIMAL_STACK_SIZE cfg)
        (YOUR_TASK4_PRIORITY cfg) ;;;
      vTaskStartScheduler env
  | None => ret tt
  end ;;;
  idle_loop.

(** The state the system is left in by [ipsa_sched]. *)
Definition startup (cfg : Config) (env : Env) : System :=
  snd (ipsa_sched cfg env boot).

Definition prvQueueSendTimerCallback : kernel unit :=
  let ulValueToSend := C.uint32_t mainVALUE_SENT_FROM_TIMER in
  xQueueSend ulValueToSend 0 ;;;
  ret tt.

(** *** The four tasks

    A task keeps [xNextWakeTime]; what it prints is kept with the tick
    it was woken at. *)
(** The newline character, written [\n] in the source. *)
Definition newline : string := String "010"%char EmptyString.

(** A call of [printf]: the format string as the source has it, the
    newline at its end included, and the [double] arguments. *)
Inductive output : Type :=
| Printf (format : string) (args : list spec_float).

(** [printf("Temp: %f\n", celsius)] *)
Definition PrintfTemp (celsius : spec_float) : output :=
  Printf ("Temp: %f" ++ newline) [celsius].

Record TaskState : Type := {
  xNextWakeTime : Z;
  console : list (Z * output)
}.

(** [xNextWakeTime = xTaskGetTickCount();] with the tick count [now]. *)
Definition enter (now : Z) : TaskState :=
  {| xNextWakeTime := now; console := [] |}.

Definition delay_until (cfg : Config) (xBlockTime : Z) (st : TaskState)
  : TaskState :=
  {| xNextWakeTime := vTaskDelayUntil cfg (xNextWakeTime st) xBlockTime;
     console := console st |}.

Definition printf (o : output) (st : TaskState) : TaskState :=
  {| xNextWakeTime := xNextWakeTime st;
     console := console st ++ [(xNextWakeTime st, o)] |}.

(** The first [n] passes through the [for (;;)] of a task. *)
Definition passes (n : nat) (body : TaskState -> TaskState)
    (st : TaskState) : TaskState :=
  Nat.iter n body st.

Definition Task1_pass (cfg : Config) (st : TaskState) : TaskState :=
  let xBlockTime := TickType_t cfg (TASK1_FREQUENCY cfg) in
  let st := delay_until cfg xBlockTime st in
  printf (Printf ("Working ! :D" ++ newline) []) st.

Definition Task1 (cfg : Config) (now : Z) (n : nat) : TaskState :=
  passes n (Task1_pass cfg) (enter now).

(** [double] is IEEE 754 binary64. *)
Definition double_of_int (z : Z) : spec_float :=
  binary_normalize 53 1024 z 0 false.
Definition double_mul := SFmul 53 1024.
Definition double_div := SFdiv 53 1024.
Definition double_sub := SFsub 53 1024.

Definition fahrenheit : spec_float := double_of_int 100.

Definition celsius : spec_float :=
  double_mul (double_div (double_of_int 5) (double_of_int 9))
             (double_sub fahrenheit (double_of_int 32)).

Definition Task2_pass (cfg : Config) (st : TaskState) : TaskState :=
  let xBlockTime := TickType_t cfg (TASK2_FREQUENCY cfg) in
  let st := delay_until cfg xBlockTime st in
  printf (PrintfTemp celsius) st.

Definition Task2 (cfg : Config) (now : Z) (n : nat) : TaskState :=
  passes n (Task2_pass cfg) (enter now).

Definition num1 : Z := 3287648234862934629.
Definition num2 : Z := 2346723849729472340.
Definition result : Z := C.long_int (num1 * num2).

Definition Task3_pass (cfg : Config) (st : TaskState) : TaskState :=
  let xBlockTime := TickType_t cfg (TASK3_FREQUENCY cfg) in
  let st := delay_until cfg xBlockTime st in
  let _ := result in
  printf (Printf ("Task 3 executed" ++ newline) []) st.

Definition Task3 (cfg : Config) (now : Z) (n : nat) : TaskState :=
  passes n (Task3_pass cfg) (enter now).

(** The value of the call of [binarySearch] is not used; the [printf]
    after it is reached when the call comes back. *)
Definition Task4_pass (cfg : Config) (st : TaskState) : TaskState :=
  let xBlockTime := TickType_t cfg (TASK4_FREQUENCY cfg) in
  let st := delay_until cfg xBlockTime st in
  match Search.binarySearch Search.elements 50 Search.targetElement with
  | Search.ReadOutOfBounds | Search.OutOfFuel => st
  | Search.Returns _ | Search.FallsOffEnd =>
      printf (Printf ("Task 4 executed" ++ newline) []) st
  end.

Definition Task4 (cfg : Config) (now : Z) (n : nat) : TaskState :=
  passes n (Task4_pass cfg) (enter now).

(** The four tasks by their code, and the block time each passes to
    [vTaskDelayUntil]. *)
Definition run_task (cfg : Config) (code : task_code) (now : Z) (n : nat)
  : TaskState :=
  match code with
  | CodeTask1 => Task1 cfg now n
  | CodeTask2 => Task2 cfg now n
  | CodeTask3 => Task3 cfg now n
  | CodeTask4 => Task4 cfg now n
  end.

Definition xBlockTime (cfg : Config) (code : task_code) : Z :=
  TickType_t cfg
    match code with
    | CodeTask1 => TASK1_FREQUENCY cfg
    | CodeTask2 => TASK2_FREQUENCY cfg
    | CodeTask3 => TASK3_FREQUENCY cfg
    | CodeTask4 => TASK4_FREQUENCY cfg
    end.

(** One pass of each task, and what the pass prints. *)
Definition task_pass (cfg : Config) (code : task_code)
  : TaskState -> TaskState :=
  match code with
  | CodeTask1 => Task1_pass cfg
  | CodeTask2 => Task2_pass cfg
  | CodeTask3 => Task3_pass cfg
  | CodeTask4 => Task4_pass cfg
  end.

Definition task_output (code : task_code) : output :=
  match code with
  | CodeTask1 => Printf ("Working ! :D" ++ newline) []
  | CodeTask2 => PrintfTemp celsius
  | CodeTask3 => Printf ("Task 3 executed" ++ newline) []
  | CodeTask4 => Printf ("Task 4 executed" ++ newline) []
  end.

(** The tick [xNextWakeTime] holds after [n] passes. *)
Definition wake (cfg : Config) (code : task_code) (now : Z) (n : nat) : Z :=
  xNextWakeTime (run_task cfg code now n).

(** The timer expiring [n] times: [n] runs of the callback. *)
Definition expiries (n : nat) (s : System) : System :=
  Nat.iter n (fun s => snd (prvQueueSendTimerCallback s)) s.

(** A configuration to evaluate at: 32-bit ticks, 1000 ticks a second
    (a millisecond is a tick), idle priority 0. *)
Definition config32 : Config :=
  {| tick_bits := 32;
     pdMS_TO_TICKS := fun xTimeInMs => xTimeInMs * 1000 / 1000;
     configMINIMAL_STACK_SIZE := 1024;
     tskIDLE_PRIORITY := 0 |}.

(** Everything the kernel is asked for is granted. *)
Definition all_available : Env :=
  {| queue_available := true; timer_available := true;
     task_available := fun _ => true; scheduler_available := true |}.

(** The timer cannot be created, everything else is granted. *)
Definition no_timer : Env :=
  {| queue_available := true; timer_available := false;
     task_available := fun _ => true; scheduler_available := true |}.

(** The queue cannot be created. *)
Definition no_queue : Env :=
  {| queue_available := false; timer_available := true;
     task_available := fun _ => true; scheduler_available := true |}.

(** The value of a finite [double] as a rational. *)
Definition double_value (x : spec_float) : option Q :=
  match x with
  | S754_zero _ => Some 0%Q
  | S754_finite s m e =>
      Some (inject_Z (if s then Z.neg m else Z.pos m) * Qpower 2 e)%Q
  | _ => None
  end.

End Sched.

(** * Properties *)

(** ** Machine arithmetic *)

Lemma int_in_range (x : Z) :
  C.INT_MIN <= x <= C.INT_MAX -> C.int x = x.
Proof.
  unfold C.INT_MIN, C.INT_MAX, C.int, C.wrap_signed. intros H.
  change (2 ^ (32 - 1)) with 2147483648 in *.
  change (2 ^ 32) with 4294967296.
  change (2 ^ 31) with 2147483648 in H.
  rewrite Z.mod_small; lia.
Qed.

Lemma INT_MAX_value : C.INT_MAX = 2147483647.
Proof. reflexivity. Qed.

Lemma INT_MIN_value : C.INT_MIN = -2147483648.
Proof. reflexivity. Qed.

(** ** Reading the array *)

Section Index.
Import Search.
Variable arr : list Z.

Lemma index_nonneg (i : Z) :
  0 <= i -> index arr i = nth_error arr (Z.to_nat i).
Proof.
  intros H. unfold index.
  destruct (Z.ltb_spec i 0); [lia | reflexivity].
Qed.

Lemma index_in_bounds (i : Z) :
  0 <= i < Z.of_nat (List.length arr) -> exists a, index arr i = Some a.
Proof.
  intros [H0 H1]. rewrite index_nonneg by assumption.
  destruct (nth_error arr (Z.to_nat i)) as [a|] eqn:E.
  - now exists a.
  - apply nth_error_None in E. lia.
Qed.

Lemma index_Some_In (i a : Z) : index arr i = Some a -> In a arr.
Proof.
  unfold index. destruct (i <? 0); [discriminate|].
  apply nth_error_In.
Qed.

Lemma In_index (a : Z) :
  In a arr ->
  exists i, 0 <= i < Z.of_nat (List.length arr) /\ index arr i = Some a.
Proof.
  intros H. apply In_nth_error in H. destruct H as [n Hn].
  exists (Z.of_nat n). split.
  - assert (n < List.length arr)%nat
      by (apply nth_error_Some; congruence).
    lia.
  - rewrite index_nonneg by lia. now rewrite Nat2Z.id.
Qed.
End Index.

Lemma StronglySorted_nth_error (l : list Z) :
  StronglySorted Z.le l ->
  forall (i j : nat) (a b : Z),
    (i <= j)%nat -> nth_error l i = Some a -> nth_error l j = Some b ->
    a <= b.
Proof.
  induction 1 as [|x l HS IH HF]; intros i j a b Hij Ha Hb.
  - destruct i; discriminate.
  - destruct i as [|i], j as [|j]; simpl in *.
    + injection Ha as <-. injection Hb as <-. lia.
    + injection Ha as <-. apply nth_error_In in Hb.
      rewrite Forall_forall in HF. now apply HF.
    + lia.
    + apply (IH i j); [lia | assumption | assumption].
Qed.

Lemma Sorted_index_le (arr : list Z) :
  Sorted Z.le arr ->
  forall i j a b,
    0 <= i <= j ->
    Search.index arr i = Some a -> Search.index arr j = Some b -> a <= b.
Proof.
  intros HS i j a b Hij Ha Hb.
  apply Sorted_StronglySorted in HS; [| intros x y z; apply Z.le_trans].
  rewrite index_nonneg in Ha, Hb by lia.
  apply (StronglySorted_nth_error arr HS (Z.to_nat i) (Z.to_nat j));
    [lia | assumption | assumption].
Qed.

(** ** The loop of [binarySearch] *)

Section Loop.
Import Search.
Variables (arr : list Z) (target : Z).

Lemma middle_between (left right : Z) :
  left <= right -> left <= middle left right <= right.
Proof.
  intros H. unfold middle.
  assert (0 <= (right - left) / 2) by (apply Z.div_pos; lia).
  assert ((right - left) / 2 <= right - left)
    by (apply Z.div_le_upper_bound; lia).
  lia.
Qed.

(** Inside the range of [int] the body computes with plain integers. *)
Lemma loop_body_plain (left right : Z) :
  0 <= left -> left <= right -> right < C.INT_MAX ->
  loop_body arr target left right =
    match index arr (middle left right) with
    | None => BadIndex
    | Some a =>
        if a =? target then Return 0
        else if a <? target then Next (middle left right + 1) right
        else Next left (middle left right - 1)
    end.
Proof.
  intros H0 Hlr Hr.
  pose proof (middle_between left right Hlr) as Hm.
  pose proof INT_MAX_value. pose proof INT_MIN_value.
  unfold loop_body.
  rewrite (int_in_range (right - left)) by lia.
  rewrite Z.quot_div_nonneg by lia.
  fold (middle left right).
  rewrite !int_in_range by lia.
  reflexivity.
Qed.

(** A pass that goes round again has moved [left] past the middle or
    [right] below it; the interval is shorter and stays inside the
    array bounds it started in. *)
Lemma loop_body_Next (left right left' right' : Z) :
  0 <= left -> left <= right -> right < C.INT_MAX ->
  loop_body arr target left right = Next left' right' ->
  ((left' = middle left right + 1 /\ right' = right) \/
   (left' = left /\ right' = middle left right - 1)) /\
  right' - left' < right - left /\
  0 <= left' /\ right' <= right.
Proof.
  intros H0 Hlr Hr E.
  pose proof (middle_between left right Hlr) as Hm.
  rewrite loop_body_plain in E by assumption.
  destruct (index arr (middle left right)) as [a|]; [|discriminate].
  destruct (a =? target); [discriminate|].
  destruct (a <? target); injection E as <- <-; split; auto; lia.
Qed.

(** Enough fuel: the loop never stops for want of it. *)
Lemma while_loop_fuel (fuel : nat) :
  forall left right,
    0 <= left -> right < C.INT_MAX ->
    right - left + 1 <= Z.of_nat fuel ->
    while_loop fuel arr target left right <> OutOfFuel.
Proof.
  induction fuel as [|fuel IH]; intros left right H0 Hr Hf; simpl.
  - destruct (Z.leb_spec left right); [lia | discriminate].
  - destruct (Z.leb_spec left right) as [Hlr|]; [|discriminate].
    destruct (loop_body arr target left right) as [v|l r|] eqn:E;
      try discriminate.
    destruct (loop_body_Next _ _ _ _ H0 Hlr Hr E) as (_ & Hd & Hl & Hr').
    apply IH; lia.
Qed.

(** More fuel than needed changes nothing. *)
Lemma while_loop_more_fuel (fuel : nat) :
  forall fuel' left right,
    (fuel <= fuel')%nat ->
    while_loop fuel arr target left right <> OutOfFuel ->
    while_loop fuel' arr target left right =
    while_loop fuel arr target left right.
Proof.
  induction fuel as [|fuel IH]; intros fuel' left right Hle Hne.
  - simpl in *. destruct fuel'; simpl;
      destruct (left <=? right); congruence.
  - destruct fuel' as [|fuel']; [lia|]. simpl in *.
    destruct (left <=? right); [|reflexivity].
    destruct (loop_body arr target left right); try reflexivity.
    apply IH; [lia | assumption].
Qed.

(** No position of the interval holds the target: the loop runs out of
    interval and control leaves the function without a [return]. *)
Lemma while_loop_absent (fuel : nat) :
  forall left right,
    0 <= left -> right < C.INT_MAX ->
    right < Z.of_nat (List.length arr) ->
    right - left + 1 <= Z.of_nat fuel ->
    (forall i, left <= i <= right -> index arr i <> Some target) ->
    while_loop fuel arr target left right = FallsOffEnd.
Proof.
  induction fuel as [|fuel IH]; intros left right H0 Hr Hlen Hf Habs; simpl.
  - destruct (Z.leb_spec left right); [lia | reflexivity].
  - destruct (Z.leb_spec left right) as [Hlr|]; [|reflexivity].
    pose proof (middle_between left right Hlr) as Hm.
    rewrite loop_body_plain by assumption.
    destruct (index_in_bounds arr (middle left right)) as [a Ha]; [lia|].
    rewrite Ha.
    destruct (Z.eqb_spec a target) as [->|Hne].
    + exfalso. apply (Habs (middle left right)); [lia | assumption].
    + destruct (a <? target); apply IH; try lia;
        intros i Hi; apply Habs; lia.
Qed.

(** The array is sorted and a position of the interval holds the
    target: the loop finds a position holding it and returns 0. *)
Lemma while_loop_present (fuel : nat) :
  Sorted Z.le arr ->
  forall left right,
    0 <= left -> right < C.INT_MAX ->
    right < Z.of_nat (List.length arr) ->
    right - left + 1 <= Z.of_nat fuel ->
    (exists i, left <= i <= right /\ index arr i = Some target) ->
    while_loop fuel arr target left right = Returns 0.
Proof.
  intros HS.
  induction fuel as [|fuel IH];
    intros left right H0 Hr Hlen Hf (i & Hi & Hit); simpl.
  - lia.
  - destruct (Z.leb_spec left right) as [Hlr|]; [|lia].
    pose proof (middle_between left right Hlr) as Hm.
    rewrite loop_body_plain by assumption.
    destruct (index_in_bounds arr (middle left right)) as [a Ha]; [lia|].
    rewrite Ha.
    destruct (Z.eqb_spec a target) as [->|Hne]; [reflexivity|].
    destruct (Z.ltb_spec a target) as [Hlt|Hge].
    + apply IH; try lia. exists i. split; [|assumption].
      destruct (Z.le_gt_cases i (middle left right)) as [Hle|]; [|lia].
      assert (target <= a)
        by (apply (Sorted_index_le arr HS i (middle left right));
            [lia | assumption | assumption]).
      lia.
    + apply IH; try lia. exists i. split; [|assumption].
      destruct (Z.le_gt_cases (middle left right) i) as [Hle|]; [|lia].
      assert (a <= target)
        by (apply (Sorted_index_le arr HS (middle left right) i);
            [lia | assumption | assumption]).
      lia.
Qed.
End Loop.

(** The interval [binarySearch] starts from. *)
Lemma binarySearch_unfold (arr : list Z) (size target : Z) :
  0 <= size <= C.INT_MAX ->
  Search.binarySearch arr size target =
  Search.while_loop (Z.to_nat size) arr target 0 (size - 1).
Proof.
  intros H. pose proof INT_MAX_value. pose proof INT_MIN_value.
  unfold Search.binarySearch.
  rewrite int_in_range by lia.
  replace (size - 1 - 0 + 1) with size by lia. reflexivity.
Qed.

Lemma binarySearch_absent (arr : list Z) (size target : Z) :
  size = Z.of_nat (List.length arr) -> size <= C.INT_MAX ->
  ~ In target arr ->
  Search.binarySearch arr size target = Search.FallsOffEnd.
Proof.
  intros Hsize Hmax Hnot.
  rewrite binarySearch_unfold by lia.
  apply while_loop_absent; try lia.
  intros i _ Hi. apply Hnot. eapply index_Some_In; eassumption.
Qed.

Lemma Sorted_elements : Sorted Z.le Search.elements.
Proof.
  unfold Search.elements.
  repeat (constructor; try (apply Z.leb_le; reflexivity)).
Qed.

(** ** [binarySearch]: what is returned *)

(** C1.  The claim asks for an index [i] with [A[i] == t] when [t] occurs
    and for a not-found value otherwise.  On the array of [Task4] the
    target 15 sits at index 4 and the call returns 0, where the array
    holds 2; the target 3 does not occur and the call ends without a
    [return]. *)
Theorem binarySearch_returns_no_index :
  Search.binarySearch Search.elements 50 15 = Search.Returns 0 /\
  Search.index Search.elements 0 = Some 2 /\
  Search.index Search.elements 4 = Some 15 /\
  Search.binarySearch Search.elements 50 3 = Search.FallsOffEnd.
Proof. repeat split; vm_compute; reflexivity. Qed.

(** C3.  There is a sorted array and a target that does not occur in it
    for which [binarySearch] reaches the end of its body without a
    [return]: the array of [Task4], its size 50, and the target 3. *)
Theorem binarySearch_falls_off_the_end :
  exists (arr : list Z) (size target : Z),
    Sorted Z.le arr /\
    size = Z.of_nat (List.length arr) /\
    ~ In target arr /\
    Search.binarySearch arr size target = Search.FallsOffEnd.
Proof.
  exists Search.elements, 50, 3.
  assert (Hnot : ~ In 3 Search.elements).
  { unfold Search.elements. simpl. intros H.
    repeat (destruct H as [H|H]; [discriminate H|]). exact H. }
  split; [exact Sorted_elements|].
  split; [reflexivity|].
  split; [exact Hnot|].
  apply binarySearch_absent; [reflexivity | rewrite INT_MAX_value; lia | exact Hnot].
Qed.

(** C4.  On a sorted array of size [n >= 1] a target that occurs in the
    array makes [binarySearch] return the constant 0, wherever the target
    sits. *)
Theorem binarySearch_found_returns_0 (arr : list Z) (size target : Z) :
  Sorted Z.le arr ->
  size = Z.of_nat (List.length arr) ->
  1 <= size <= C.INT_MAX ->
  In target arr ->
  Search.binarySearch arr size target = Search.Returns 0.
Proof.
  intros HS Hsize Hrange Hin.
  rewrite binarySearch_unfold by lia.
  apply while_loop_present; try lia; [assumption|].
  destruct (In_index arr target Hin) as (i & Hi & Hit).
  exists i. split; [lia | assumption].
Qed.

(** The array of [Task4] and the target 15, which sits at index 4: the
    call returns 0. *)
Lemma binarySearch_found_returns_0_witness :
  Search.index Search.elements 4 = Some Search.targetElement /\
  Search.binarySearch Search.elements 50 Search.targetElement
  = Search.Returns 0.
Proof.
  split; [reflexivity|].
  apply (binarySearch_found_returns_0 Search.elements 50 Search.targetElement).
  - exact Sorted_elements.
  - reflexivity.
  - rewrite INT_MAX_value. lia.
  - unfold Search.targetElement, Search.elements. simpl. tauto.
Defined.

(** C10.  [binarySearch] terminates for every array, every size
    [0 <= n] an [int] holds and every target: the call has an outcome
    without want of fuel, the same for any larger number of granted
    iterations, and a pass of the loop that goes round again has moved
    [left] past the middle or [right] below it, so that [right - left]
    is strictly smaller. *)
Theorem binarySearch_terminates (arr : list Z) (size target : Z) :
  0 <= size <= C.INT_MAX ->
  Search.binarySearch arr size target <> Search.OutOfFuel /\
  (forall fuel : nat,
      (Z.to_nat size <= fuel)%nat ->
      Search.while_loop fuel arr target 0 (size - 1)
      = Search.binarySearch arr size target) /\
  (forall left right left' right' : Z,
      0 <= left -> left <= right -> right < size ->
      Search.loop_body arr target left right = Search.Next left' right' ->
      ((Search.middle left right < left' /\ right' = right) \/
       (left' = left /\ right' < Search.middle left right)) /\
      right' - left' < right - left /\
      0 <= left' /\ right' < size).
Proof.
  intros Hsize.
  assert (Hfuel : Search.while_loop (Z.to_nat size) arr target 0 (size - 1)
                  <> Search.OutOfFuel)
    by (apply while_loop_fuel; lia).
  rewrite binarySearch_unfold by assumption.
  split; [exact Hfuel|]. split.
  - intros fuel Hle. now apply while_loop_more_fuel.
  - intros left right left' right' H0 Hlr Hr E.
    assert (Hmax : right < C.INT_MAX) by lia.
    destruct (loop_body_Next arr target left right left' right'
                H0 Hlr Hmax E) as (Hcase & Hd & Hl & Hr').
    split; [|lia].
    destruct Hcase as [[-> ->]|[-> ->]]; [left | right]; lia.
Qed.

Lemma binarySearch_terminates_witness :
  0 <= 50 <= C.INT_MAX /\
  Search.binarySearch Search.elements 50 15 <> Search.OutOfFuel.
Proof.
  assert (H : 0 <= 50 <= C.INT_MAX) by (rewrite INT_MAX_value; lia).
  split; [exact H|].
  exact (proj1 (binarySearch_terminates Search.elements 50 15 H)).
Defined.

(** ** The arithmetic task *)

(** C5.  The product of the two constants of [Task3] is larger than the
    largest [long int], and what is stored in [result] is that product
    reduced modulo [2^64] into the range of [long int]. *)
Theorem Task3_product_wraps :
  C.LONG_MAX < Sched.num1 * Sched.num2 /\
  Sched.result = 6030233430655540260 /\
  C.LONG_MIN <= Sched.result <= C.LONG_MAX /\
  Sched.result = (Sched.num1 * Sched.num2) mod 2 ^ 64 /\
  Sched.result <> Sched.num1 * Sched.num2.
Proof.
  assert (E : Sched.result = 6030233430655540260) by (vm_compute; reflexivity).
  rewrite E.
  unfold C.LONG_MAX, C.LONG_MIN, Sched.num1, Sched.num2.
  repeat split; try (vm_compute; congruence).
Qed.

(** ** The conversion task *)

Lemma celsius_bits :
  Sched.celsius = S754_finite false 5316749560090169 (-47).
Proof. vm_compute. reflexivity. Qed.

(** The claim of C9 read to the letter, that the [double] printed by
    [Task2] has the value 340/9, fails: the value is a multiple of
    [2^-47], and 340/9 is not. *)
Lemma celsius_is_not_340_ninths :
  ~ (exists q : Q, Sched.double_value Sched.celsius = Some q /\ (q == 340 # 9)%Q).
Proof.
  intros (q & Hq & E). rewrite celsius_bits in Hq.
  injection Hq as <-. vm_compute in E. discriminate E.
Qed.

(** One pass of a task: [xNextWakeTime] is what [vTaskDelayUntil] stores,
    and one line is printed at that tick. *)
Lemma task_pass_spec (cfg : Kernel.Config) (code : Kernel.task_code)
    (st : Sched.TaskState) :
  Sched.task_pass cfg code st =
  {| Sched.xNextWakeTime :=
       Kernel.vTaskDelayUntil cfg (Sched.xNextWakeTime st)
         (Sched.xBlockTime cfg code);
     Sched.console :=
       Sched.console st ++
       [(Kernel.vTaskDelayUntil cfg (Sched.xNextWakeTime st)
           (Sched.xBlockTime cfg code),
         Sched.task_output code)] |}.
Proof.
  destruct code; reflexivity.
Qed.

Lemma run_task_passes (cfg : Kernel.Config) (code : Kernel.task_code)
    (now : Z) (n : nat) :
  Sched.run_task cfg code now n
  = Nat.iter n (Sched.task_pass cfg code) (Sched.enter now).
Proof. destruct code; reflexivity. Qed.

Lemma run_task_S (cfg : Kernel.Config) (code : Kernel.task_code)
    (now : Z) (n : nat) :
  Sched.run_task cfg code now (S n)
  = Sched.task_pass cfg code (Sched.run_task cfg code now n).
Proof. rewrite !run_task_passes. reflexivity. Qed.

Lemma wake_S (cfg : Kernel.Config) (code : Kernel.task_code)
    (now : Z) (n : nat) :
  Sched.wake cfg code now (S n)
  = Kernel.vTaskDelayUntil cfg (Sched.wake cfg code now n)
      (Sched.xBlockTime cfg code).
Proof.
  unfold Sched.wake. rewrite run_task_S, task_pass_spec. reflexivity.
Qed.

Lemma console_S (cfg : Kernel.Config) (code : Kernel.task_code)
    (now : Z) (n : nat) :
  Sched.console (Sched.run_task cfg code now (S n))
  = Sched.console (Sched.run_task cfg code now n)
    ++ [(Sched.wake cfg code now (S n), Sched.task_output code)].
Proof.
  rewrite wake_S. unfold Sched.wake.
  rewrite run_task_S, task_pass_spec. reflexivity.
Qed.

Lemma Task2_prints (cfg : Kernel.Config) (now : Z) (n : nat) :
  map snd (Sched.console (Sched.Task2 cfg now n))
  = repeat (Sched.PrintfTemp Sched.celsius) n.
Proof.
  change (Sched.Task2 cfg now n)
    with (Sched.run_task cfg Kernel.CodeTask2 now n).
  induction n as [|n IH].
  - reflexivity.
  - rewrite console_S, map_app, IH. cbn [map snd Sched.task_output].
    rewrite <- repeat_cons. reflexivity.
Qed.

(** C9, amended.  On every activation [Task2] prints the same [double],
    the value of [(5.0 / 9.0) * (fahrenheit - 32.0)] in binary64
    arithmetic for [fahrenheit = 100].  That [double] is
    [5316749560090169 * 2^-47]; it lies above 340/9 by [1 / (9 * 2^47)],
    less than half the distance [2^-47] between neighbouring [double]s
    there, and between 37.775 and 37.785. *)
Theorem Task2_prints_nearest_double :
  (forall (cfg : Kernel.Config) (now : Z) (n : nat),
      map snd (Sched.console (Sched.Task2 cfg now n))
      = repeat (Sched.PrintfTemp Sched.celsius) n) /\
  Sched.celsius =
    SFmul 53 1024
      (SFdiv 53 1024 (Sched.double_of_int 5) (Sched.double_of_int 9))
      (SFsub 53 1024 (Sched.double_of_int 100) (Sched.double_of_int 32)) /\
  exists q : Q,
    Sched.double_value Sched.celsius = Some q /\
    (q == 5316749560090169 # (2 ^ 47))%Q /\
    (q - (340 # 9) == 1 # (9 * 2 ^ 47))%Q /\
    (q - (340 # 9) < 1 # (2 ^ 48))%Q /\
    (37775 # 1000 < q)%Q /\ (q < 37785 # 1000)%Q.
Proof.
  split; [exact Task2_prints|]. split; [reflexivity|].
  rewrite celsius_bits. eexists. split; [reflexivity|].
  repeat split; vm_compute; reflexivity.
Qed.

(** ** Startup *)

Section Startup.
Import Kernel.
Local Open Scope string_scope.
Variables (cfg : Config) (env : Env).

(** Runs [ipsa_sched] through every combination of what the kernel
    grants. *)
Ltac run_startup env :=
  destruct env as [qa ta tk sa];
  unfold Sched.startup, Sched.ipsa_sched, bind, xQueueCreate, xTimerCreate,
    xTaskCreate, vTaskStartScheduler, Sched.set_xQueue, Sched.set_xTimer,
    xTimerStart, Sched.idle_loop, ret;
  cbn [queue_available timer_available task_available scheduler_available];
  destruct qa; [|reflexivity];
  destruct ta, (tk CodeTask1), (tk CodeTask2), (tk CodeTask3),
    (tk CodeTask4), sa; reflexivity.

(** The calls [ipsa_sched] makes on the kernel, in order. *)
Lemma startup_calls :
  calls (Sched.startup cfg env) =
  if queue_available env then
   ([CallQueueCreate 4 4;
     CallTimerCreate "Timer" (TickType_t cfg 2000) true
       PrvQueueSendTimerCallback]
    ++ (if timer_available env then [CallTimerStart 0] else [])
    ++ [CallTaskCreate CodeTask1 "Task1" (configMINIMAL_STACK_SIZE cfg)
          (tskIDLE_PRIORITY cfg + 1);
        CallTaskCreate CodeTask2 "Task2" (configMINIMAL_STACK_SIZE cfg)
          (tskIDLE_PRIORITY cfg + 2);
        CallTaskCreate CodeTask3 "Task3" (configMINIMAL_STACK_SIZE cfg)
          (tskIDLE_PRIORITY cfg + 3);
        CallTaskCreate CodeTask4 "Task4" (configMINIMAL_STACK_SIZE cfg)
          (tskIDLE_PRIORITY cfg + 4);
        CallStartScheduler])%list
  else [CallQueueCreate 4 4].
Proof.
  run_startup env.
Qed.

(** Where control ends up. *)
Lemma startup_where :
  where_ (Sched.startup cfg env) =
  if queue_available env && scheduler_available env
  then SchedulerRunning else IdleLoop.
Proof.
  run_startup env.
Qed.

(** The two handles after startup. *)
Lemma startup_xQueue :
  xQueue (Sched.startup cfg env) =
  if queue_available env then Some (new_queue 4 4) else None.
Proof.
  run_startup env.
Qed.

Lemma startup_xTimer :
  xTimer (Sched.startup cfg env) =
  if queue_available env && timer_available env
  then Some {| timer_name := "Timer"; timer_period := TickType_t cfg 2000;
               auto_reload := true;
               timer_callback := PrvQueueSendTimerCallback;
               active := true |}
  else None.
Proof.
  run_startup env.
Qed.

(** The four tasks as [ipsa_sched] asks for them. *)
Lemma startup_tasks :
  tasks (Sched.startup cfg env) =
  if queue_available env then
    filter (fun t => task_available env (task_body t))
      [ {| task_body := CodeTask1; task_name := "Task1";
           stack_depth := configMINIMAL_STACK_SIZE cfg;
           priority := tskIDLE_PRIORITY cfg + 1 |};
        {| task_body := CodeTask2; task_name := "Task2";
           stack_depth := configMINIMAL_STACK_SIZE cfg;
           priority := tskIDLE_PRIORITY cfg + 2 |};
        {| task_body := CodeTask3; task_name := "Task3";
           stack_depth := configMINIMAL_STACK_SIZE cfg;
           priority := tskIDLE_PRIORITY cfg + 3 |};
        {| task_body := CodeTask4; task_name := "Task4";
           stack_depth := configMINIMAL_STACK_SIZE cfg;
           priority := tskIDLE_PRIORITY cfg + 4 |} ]
  else [].
Proof.
  destruct env as [qa ta tk sa].
  unfold Sched.startup, Sched.ipsa_sched, bind, xQueueCreate, xTimerCreate,
    xTaskCreate, vTaskStartScheduler, Sched.set_xQueue, Sched.set_xTimer,
    xTimerStart, Sched.idle_loop, ret.
  cbn [queue_available timer_available task_available scheduler_available
       filter task_body].
  destruct qa; [|reflexivity].
  destruct ta, (tk CodeTask1), (tk CodeTask2), (tk CodeTask3),
    (tk CodeTask4), sa; reflexivity.
Qed.

Lemma startup_tasks_without_queue :
  queue_available env = false -> tasks (Sched.startup cfg env) = [].
Proof.
  destruct env as [qa ta tk sa]. cbn. intros ->. reflexivity.
Qed.
End Startup.

(** C2 as stated fails when the timer is the component that cannot be
    created: the queue exists, [xTimerStart] is skipped, the tasks are
    created and [vTaskStartScheduler] is called. *)
Lemma scheduler_started_without_timer :
  ~ (forall (cfg : Kernel.Config) (env : Kernel.Env),
        Kernel.queue_available env = false \/
        Kernel.timer_available env = false ->
        ~ In Kernel.CallStartScheduler
            (Kernel.calls (Sched.startup cfg env)) /\
        Kernel.where_ (Sched.startup cfg env) = Kernel.IdleLoop).
Proof.
  intros H.
  destruct (H Sched.config32 Sched.no_timer (or_intror eq_refl)) as [_ Hw].
  vm_compute in Hw. discriminate Hw.
Qed.

(** C2, amended.  When the queue cannot be created, [ipsa_sched] makes no
    other call on the kernel: no timer, no task, [vTaskStartScheduler] is
    not reached and control ends in the idle loop.  When the queue is
    created and the timer is not, only [xTimerStart] is skipped:
    [xTaskCreate] is called for Task1 to Task4, every task whose creation
    succeeds exists afterwards, all four when all succeed, and
    [vTaskStartScheduler] is called; the idle loop is reached only if
    that call comes back. *)
Theorem startup_guarded_by_queue_only
    (cfg : Kernel.Config) (env : Kernel.Env) :
  Kernel.queue_available env = false \/ Kernel.timer_available env = false ->
  (Kernel.queue_available env = false ->
   Kernel.calls (Sched.startup cfg env) = [Kernel.CallQueueCreate 4 4] /\
   ~ In Kernel.CallStartScheduler (Kernel.calls (Sched.startup cfg env)) /\
   Kernel.where_ (Sched.startup cfg env) = Kernel.IdleLoop /\
   Kernel.xQueue (Sched.startup cfg env) = None /\
   Kernel.xTimer (Sched.startup cfg env) = None /\
   Kernel.tasks (Sched.startup cfg env) = []) /\
  (Kernel.queue_available env = true ->
   Kernel.xTimer (Sched.startup cfg env) = None /\
   ~ In (Kernel.CallTimerStart 0) (Kernel.calls (Sched.startup cfg env)) /\
   (forall code : Kernel.task_code,
       exists name stack prio,
         In (Kernel.CallTaskCreate code name stack prio)
            (Kernel.calls (Sched.startup cfg env))) /\
   In Kernel.CallStartScheduler (Kernel.calls (Sched.startup cfg env)) /\
   Kernel.where_ (Sched.startup cfg env) =
     (if Kernel.scheduler_available env
      then Kernel.SchedulerRunning else Kernel.IdleLoop) /\
   Kernel.calls (Sched.startup cfg env) =
     [Kernel.CallQueueCreate 4 4;
      Kernel.CallTimerCreate "Timer" (Kernel.TickType_t cfg 2000) true
        Kernel.PrvQueueSendTimerCallback;
      Kernel.CallTaskCreate Kernel.CodeTask1 "Task1"
        (Kernel.configMINIMAL_STACK_SIZE cfg)
        (Kernel.tskIDLE_PRIORITY cfg + 1);
      Kernel.CallTaskCreate Kernel.CodeTask2 "Task2"
        (Kernel.configMINIMAL_STACK_SIZE cfg)
        (Kernel.tskIDLE_PRIORITY cfg + 2);
      Kernel.CallTaskCreate Kernel.CodeTask3 "Task3"
        (Kernel.configMINIMAL_STACK_SIZE cfg)
        (Kernel.tskIDLE_PRIORITY cfg + 3);
      Kernel.CallTaskCreate Kernel.CodeTask4 "Task4"
        (Kernel.configMINIMAL_STACK_SIZE cfg)
        (Kernel.tskIDLE_PRIORITY cfg + 4);
      Kernel.CallStartScheduler] /\
   Kernel.tasks (Sched.startup cfg env) =
     filter (fun t => Kernel.task_available env (Kernel.task_body t))
       [ {| Kernel.task_body := Kernel.CodeTask1;
            Kernel.task_name := "Task1";
            Kernel.stack_depth := Kernel.configMINIMAL_STACK_SIZE cfg;
            Kernel.priority := Kernel.tskIDLE_PRIORITY cfg + 1 |};
         {| Kernel.task_body := Kernel.CodeTask2;
            Kernel.task_name := "Task2";
            Kernel.stack_depth := Kernel.configMINIMAL_STACK_SIZE cfg;
            Kernel.priority := Kernel.tskIDLE_PRIORITY cfg + 2 |};
         {| Kernel.task_body := Kernel.CodeTask3;
            Kernel.task_name := "Task3";
            Kernel.stack_depth := Kernel.configMINIMAL_STACK_SIZE cfg;
            Kernel.priority := Kernel.tskIDLE_PRIORITY cfg + 3 |};
         {| Kernel.task_body := Kernel.CodeTask4;
            Kernel.task_name := "Task4";
            Kernel.stack_depth := Kernel.configMINIMAL_STACK_SIZE cfg;
            Kernel.priority := Kernel.tskIDLE_PRIORITY cfg + 4 |} ] /\
   ((forall code : Kernel.task_code,
        Kernel.task_available env code = true) ->
    map Kernel.task_body (Kernel.tasks (Sched.startup cfg env)) =
      [Kernel.CodeTask1; Kernel.CodeTask2; Kernel.CodeTask3;
       Kernel.CodeTask4])).
Proof.
  intros Hfail. split.
  - intros Hq.
    rewrite startup_calls, startup_where, startup_xQueue, startup_xTimer,
      startup_tasks_without_queue by assumption.
    rewrite Hq. cbn [andb].
    repeat split. intros [H|[]]. discriminate H.
  - intros Hq.
    assert (Ht : Kernel.timer_available env = false)
      by (destruct Hfail as [H|H]; congruence).
    rewrite startup_tasks, startup_calls, startup_where, startup_xTimer.
    rewrite Hq, Ht. cbn [andb app].
    split; [reflexivity|]. split.
    { cbn [In]. intros H.
      repeat (destruct H as [H|H]; [discriminate H|]). exact H. }
    split.
    { intros code. destruct code; do 3 eexists; cbn [In].
      - do 2 right. left. reflexivity.
      - do 3 right. left. reflexivity.
      - do 4 right. left. reflexivity.
      - do 5 right. left. reflexivity. }
    split; [cbn [In]; do 6 right; left; reflexivity|].
    split; [reflexivity|]. split; [reflexivity|].
    split; [reflexivity|].
    intros Hall. cbn [filter Kernel.task_body]. rewrite !Hall. reflexivity.
Qed.

(** The timer refused and everything else granted: the scheduler is
    started with the four tasks and without the timer. *)
Lemma startup_guarded_by_queue_only_witness :
  Kernel.timer_available Sched.no_timer = false /\
  Kernel.queue_available Sched.no_timer = true /\
  Kernel.xTimer (Sched.startup Sched.config32 Sched.no_timer) = None /\
  In Kernel.CallStartScheduler
     (Kernel.calls (Sched.startup Sched.config32 Sched.no_timer)) /\
  map Kernel.task_body
    (Kernel.tasks (Sched.startup Sched.config32 Sched.no_timer)) =
    [Kernel.CodeTask1; Kernel.CodeTask2; Kernel.CodeTask3;
     Kernel.CodeTask4].
Proof.
  split; [reflexivity|]. split; [reflexivity|].
  destruct (startup_guarded_by_queue_only Sched.config32 Sched.no_timer
              (or_intror eq_refl)) as [_ Hsecond].
  destruct (Hsecond eq_refl)
    as (Htimer & _ & _ & Hstart & _ & _ & _ & Hall).
  split; [exact Htimer|]. split; [exact Hstart|].
  apply Hall. intros code. reflexivity.
Defined.

(** ** The queue *)

Section QueueFacts.
Import Kernel.

Lemma send_result (q : Queue) (value maxWaitTicks : Z) :
  (count q < capacity q ->
   send q value maxWaitTicks =
     (Success,
      {| capacity := capacity q; item_size := item_size q;
         items := items q ++ [C.wrap_unsigned (8 * item_size q) value] |}))
  /\
  (capacity q <= count q -> maxWaitTicks = 0 ->
   send q value maxWaitTicks = (FailedImmediately, q)) /\
  (capacity q <= count q -> maxWaitTicks <> 0 ->
   send q value maxWaitTicks = (Blocks maxWaitTicks, q)).
Proof.
  unfold send. destruct (Z.ltb_spec (count q) (capacity q));
    repeat split; intros; try lia; try reflexivity.
  - subst. reflexivity.
  - destruct (Z.eqb_spec maxWaitTicks 0); [contradiction | reflexivity].
Qed.

Lemma count_app (q : Queue) (v : Z) :
  Z.of_nat (List.length (items q ++ [v])) = count q + 1.
Proof. unfold count. rewrite length_app. cbn [List.length]. lia. Qed.

(** No operation takes the queue out of its shape. *)
Lemma apply_op_four_slots (q : Queue) (op : queue_op) :
  four_slots q -> four_slots (apply_op q op).
Proof.
  intros Hq. pose proof Hq as (Hc & Hs & Hn & Hv).
  destruct op as [v w|w]; cbn [apply_op].
  - unfold send. destruct (Z.ltb_spec (count q) (capacity q)) as [Hlt|Hge].
    + cbn [snd]. unfold four_slots, count. cbn [capacity item_size items].
      rewrite count_app. repeat split; try lia.
      apply Forall_app. split; [assumption|].
      constructor; [|constructor].
      rewrite Hs. unfold C.wrap_unsigned. change (2 ^ (8 * 4)) with (2 ^ 32).
      apply Z.mod_pos_bound. reflexivity.
    + destruct (w =? 0); exact Hq.
  - unfold receive. destruct (items q) as [|x rest] eqn:E.
    + destruct (w =? 0); exact Hq.
    + cbn [snd]. unfold four_slots, count in *.
      cbn [capacity item_size items]. rewrite E in Hn.
      cbn [List.length] in Hn. inversion Hv; subst.
      repeat split; try lia; assumption.
Qed.

Lemma apply_ops_four_slots (ops : list queue_op) :
  forall q, four_slots q -> four_slots (apply_ops q ops).
Proof.
  unfold apply_ops. induction ops as [|op ops IH]; intros q Hq.
  - exact Hq.
  - cbn [fold_left]. apply IH. now apply apply_op_four_slots.
Qed.

Lemma new_queue_four_slots : four_slots (new_queue 4 4).
Proof.
  unfold four_slots, new_queue, count. cbn.
  repeat split; try lia. constructor.
Qed.

(** The callback on a system that has its queue. *)
Lemma callback_run (s : System) (q : Queue) :
  xQueue s = Some q ->
  Sched.prvQueueSendTimerCallback s =
  (Continues tt,
   record (CallQueueSend 200 0 (fst (send q 200 0)))
     (with_queue (Some (snd (send q 200 0))) s)).
Proof.
  intros Hq.
  unfold Sched.prvQueueSendTimerCallback, bind, xQueueSend, ret.
  change (C.uint32_t Sched.mainVALUE_SENT_FROM_TIMER) with 200.
  rewrite Hq. destruct (send q 200 0) as [r q']. reflexivity.
Qed.

Lemma expiries_queue (n : nat) (s : System) (q : Queue) :
  xQueue s = Some q ->
  xQueue (Sched.expiries n s)
  = Some (apply_ops q (repeat (OpSend 200 0) n)).
Proof.
  intros Hq. induction n as [|n IH].
  - exact Hq.
  - change (Sched.expiries (S n) s)
      with (snd (Sched.prvQueueSendTimerCallback (Sched.expiries n s))).
    rewrite (callback_run _ _ IH).
    cbn [snd record with_queue xQueue].
    cbn [repeat]. rewrite repeat_cons. unfold apply_ops.
    rewrite fold_left_app. reflexivity.
Qed.
End QueueFacts.

(** C7.  The timer callback makes exactly one call on the kernel, a send
    of the 32-bit value 200 that marks the timer as the sender, with a
    maximum wait of 0 ticks, and comes back: the send never blocks.  On a
    full queue the send fails at once and the queue is as it was; with
    room the value is queued. *)
Theorem timer_callback_sends_once_without_blocking
    (s : Kernel.System) (q : Kernel.Queue) :
  Kernel.xQueue s = Some q ->
  exists (r : Kernel.status) (q' : Kernel.Queue),
    Kernel.send q 200 0 = (r, q') /\
    Sched.prvQueueSendTimerCallback s =
      (Kernel.Continues tt,
       Kernel.record (Kernel.CallQueueSend 200 0 r)
         (Kernel.with_queue (Some q') s)) /\
    Kernel.calls (snd (Sched.prvQueueSendTimerCallback s)) =
      Kernel.calls s
      ++ [Kernel.CallQueueSend (C.uint32_t Sched.mainVALUE_SENT_FROM_TIMER)
            0 r] /\
    (forall w : Z, r <> Kernel.Blocks w) /\
    (Kernel.capacity q <= Kernel.count q ->
     r = Kernel.FailedImmediately /\ q' = q /\
     Kernel.xQueue (snd (Sched.prvQueueSendTimerCallback s))
     = Kernel.xQueue s) /\
    (Kernel.count q < Kernel.capacity q ->
     r = Kernel.Success /\ Kernel.count q' = Kernel.count q + 1 /\
     (Kernel.item_size q = C.sizeof_uint32_t ->
      Kernel.items q' = Kernel.items q ++ [200])).
Proof.
  intros Hq.
  exists (fst (Kernel.send q 200 0)), (snd (Kernel.send q 200 0)).
  rewrite (callback_run s q Hq).
  split; [apply surjective_pairing|].
  split; [reflexivity|]. split; [reflexivity|].
  destruct (send_result q 200 0) as (Hroom & Hfull & _).
  destruct (Z.lt_ge_cases (Kernel.count q) (Kernel.capacity q)) as [Hlt|Hge].
  - rewrite (Hroom Hlt). cbn [fst snd].
    split; [discriminate|]. split; [lia|]. intros _.
    split; [reflexivity|]. cbn [Kernel.items].
    split; [unfold Kernel.count at 1; cbn [Kernel.items]; apply count_app|].
    intros ->. reflexivity.
  - rewrite (Hfull Hge eq_refl). cbn [fst snd].
    split; [discriminate|]. split; [|lia]. intros _.
    repeat split. cbn [Kernel.record Kernel.with_queue Kernel.xQueue].
    symmetry. exact Hq.
Qed.

Lemma timer_callback_sends_once_without_blocking_witness :
  Kernel.xQueue (Sched.expiries 4 (Sched.startup Sched.config32 Sched.all_available))
  = Some {| Kernel.capacity := 4; Kernel.item_size := 4;
            Kernel.items := [200; 200; 200; 200] |} /\
  exists (r : Kernel.status) (q' : Kernel.Queue),
    Kernel.send {| Kernel.capacity := 4; Kernel.item_size := 4;
                   Kernel.items := [200; 200; 200; 200] |} 200 0
    = (r, q') /\
    forall w : Z, r <> Kernel.Blocks w.
Proof.
  assert (H : Kernel.xQueue
                (Sched.expiries 4
                   (Sched.startup Sched.config32 Sched.all_available))
              = Some {| Kernel.capacity := 4; Kernel.item_size := 4;
                        Kernel.items := [200; 200; 200; 200] |})
    by (vm_compute; reflexivity).
  split; [exact H|].
  destruct (timer_callback_sends_once_without_blocking _ _ H)
    as (r & q' & Hs & _ & _ & Hb & _).
  exists r, q'. split; [exact Hs | exact Hb].
Defined.

(** C8.  [ipsa_sched] asks for a queue exactly once, for 4 elements of
    [sizeof(uint32_t)] bytes, that is of 32 bits.  The queue it gets is
    empty and has 4 slots, and whatever sends and receives are made on
    it, and however often the timer expires, it holds between 0 and 4
    values, each a 32-bit unsigned one. *)
Theorem queue_created_once_with_four_slots
    (cfg : Kernel.Config) (env : Kernel.Env) (q : Kernel.Queue)
    (ops : list Kernel.queue_op) (n : nat) :
  Kernel.xQueue (Sched.startup cfg env) = Some q ->
  filter Kernel.is_queue_create (Kernel.calls (Sched.startup cfg env))
  = [Kernel.CallQueueCreate Sched.mainQUEUE_LENGTH C.sizeof_uint32_t] /\
  Sched.mainQUEUE_LENGTH = 4 /\
  8 * C.sizeof_uint32_t = 32 /\
  Kernel.capacity q = 4 /\ Kernel.item_size q = 4 /\ Kernel.count q = 0 /\
  Kernel.capacity (Kernel.apply_ops q ops) = 4 /\
  0 <= Kernel.count (Kernel.apply_ops q ops) <= 4 /\
  Forall (fun v => 0 <= v < 2 ^ 32) (Kernel.items (Kernel.apply_ops q ops)) /\
  exists q' : Kernel.Queue,
    Kernel.xQueue (Sched.expiries n (Sched.startup cfg env)) = Some q' /\
    Kernel.capacity q' = 4 /\
    0 <= Kernel.count q' <= 4.
Proof.
  intros Hq.
  assert (Hcalls : filter Kernel.is_queue_create
                     (Kernel.calls (Sched.startup cfg env))
                   = [Kernel.CallQueueCreate 4 4]).
  { rewrite startup_calls.
    destruct (Kernel.queue_available env), (Kernel.timer_available env);
      reflexivity. }
  rewrite startup_xQueue in Hq.
  destruct (Kernel.queue_available env) eqn:Ha; [|discriminate Hq].
  injection Hq as <-.
  pose proof (apply_ops_four_slots ops _ new_queue_four_slots)
    as (Hc & _ & Hn & Hv).
  split; [exact Hcalls|].
  do 5 (split; [reflexivity|]).
  split; [exact Hc|]. split; [exact Hn|]. split; [exact Hv|].
  exists (Kernel.apply_ops (Kernel.new_queue 4 4)
            (repeat (Kernel.OpSend 200 0) n)).
  split.
  - apply expiries_queue. rewrite startup_xQueue, Ha. reflexivity.
  - pose proof (apply_ops_four_slots (repeat (Kernel.OpSend 200 0) n) _
                  new_queue_four_slots) as (Hc' & _ & Hn' & _).
    split; assumption.
Qed.

Lemma queue_created_once_with_four_slots_witness :
  Kernel.xQueue (Sched.startup Sched.config32 Sched.all_available)
  = Some (Kernel.new_queue 4 4) /\
  0 <= Kernel.count
         (Kernel.apply_ops (Kernel.new_queue 4 4)
            [Kernel.OpSend 100 0; Kernel.OpSend 100 0; Kernel.OpSend 100 0;
             Kernel.OpSend 100 0; Kernel.OpSend 100 0; Kernel.OpReceive 0])
    <= 4.
Proof.
  assert (H : Kernel.xQueue (Sched.startup Sched.config32 Sched.all_available)
              = Some (Kernel.new_queue 4 4))
    by (vm_compute; reflexivity).
  split; [exact H|].
  exact (proj1 (proj2 (proj2 (proj2 (proj2 (proj2 (proj2 (proj2
           (queue_created_once_with_four_slots
              Sched.config32 Sched.all_available (Kernel.new_queue 4 4)
              [Kernel.OpSend 100 0; Kernel.OpSend 100 0; Kernel.OpSend 100 0;
               Kernel.OpSend 100 0; Kernel.OpSend 100 0; Kernel.OpReceive 0]
              0%nat H))))))))).
Defined.

(** ** The periodic tasks *)

Section Wake.
Import Kernel.
Variables (cfg : Config) (code : task_code) (now : Z).
Hypothesis width : 0 < tick_bits cfg.
Hypothesis now_is_a_tick : 0 <= now < 2 ^ tick_bits cfg.

Lemma modulus_pos : 0 < 2 ^ tick_bits cfg.
Proof. apply Z.pow_pos_nonneg; lia. Qed.

Lemma xBlockTime_range :
  0 <= Sched.xBlockTime cfg code < 2 ^ tick_bits cfg.
Proof.
  unfold Sched.xBlockTime, TickType_t, C.wrap_unsigned.
  apply Z.mod_pos_bound, modulus_pos.
Qed.

(** After [n] passes [xNextWakeTime] is the tick the task was entered
    at plus [n] periods, in [TickType_t] arithmetic. *)
Lemma wake_closed_form (n : nat) :
  Sched.wake cfg code now n
  = (now + Z.of_nat n * Sched.xBlockTime cfg code) mod 2 ^ tick_bits cfg.
Proof.
  induction n as [|n IH].
  - unfold Sched.wake. rewrite run_task_passes. cbn.
    rewrite Z.add_0_r, Z.mod_small; [reflexivity | exact now_is_a_tick].
  - rewrite wake_S, IH. unfold vTaskDelayUntil, TickType_t, C.wrap_unsigned.
    rewrite Zplus_mod_idemp_l. f_equal. lia.
Qed.

Lemma console_ticks (n : nat) :
  map fst (Sched.console (Sched.run_task cfg code now n))
  = map (Sched.wake cfg code now) (seq 1 n).
Proof.
  induction n as [|n IH].
  - rewrite run_task_passes. reflexivity.
  - rewrite console_S, map_app, IH, seq_S, map_app. reflexivity.
Qed.

(** Whatever the width of a tick, a task entered at the largest tick
    wakes next at a smaller one. *)
Lemma wake_wraps_at_largest_tick :
  0 < Sched.xBlockTime cfg code ->
  Sched.wake cfg code (2 ^ tick_bits cfg - 1) 1
  < Sched.wake cfg code (2 ^ tick_bits cfg - 1) 0.
Proof.
  intros Hpos. pose proof xBlockTime_range as HP.
  pose proof modulus_pos as HM.
  rewrite wake_S. unfold Sched.wake at 1 2. rewrite run_task_passes.
  cbn [Nat.iter nat_rect Sched.enter Sched.xNextWakeTime].
  unfold vTaskDelayUntil, TickType_t, C.wrap_unsigned.
  replace (2 ^ tick_bits cfg - 1 + Sched.xBlockTime cfg code)
    with (Sched.xBlockTime cfg code - 1 + 1 * 2 ^ tick_bits cfg) by lia.
  rewrite Z.mod_add by lia.
  rewrite Z.mod_small by lia. lia.
Qed.
End Wake.

(** C6 as stated fails where the tick count wraps around: with 32-bit
    ticks, [Task1] entered at tick [2^32 - 1] has its next wake time at
    tick 3999, which is smaller and is not the old one plus 4000. *)
Lemma wake_time_wraps_around :
  ~ (forall (cfg : Kernel.Config) (code : Kernel.task_code) (now : Z)
            (n : nat),
        0 < Kernel.tick_bits cfg ->
        0 <= now < 2 ^ Kernel.tick_bits cfg ->
        Sched.wake cfg code now (S n)
        = Sched.wake cfg code now n + Sched.xBlockTime cfg code /\
        Sched.wake cfg code now n <= Sched.wake cfg code now (S n)).
Proof.
  intros H.
  assert (Hw : 0 < Kernel.tick_bits Sched.config32) by reflexivity.
  assert (Hn : 0 <= 4294967295 < 2 ^ Kernel.tick_bits Sched.config32)
    by (vm_compute; split; congruence).
  destruct (H Sched.config32 Kernel.CodeTask1 4294967295 0%nat Hw Hn)
    as [_ Hle].
  vm_compute in Hle. apply Hle. reflexivity.
Qed.

(** C6, amended.  For each of the four tasks every pass stores the
    previous wake time plus the task's fixed block time in
    [xNextWakeTime], in [TickType_t] arithmetic, that is modulo
    [2^tick_bits]; the current tick plays no part.  After [n] passes the
    wake time is the entry tick plus [n] periods modulo [2^tick_bits], so
    no drift builds up, and the task's lines are printed at exactly these
    ticks.  As long as the sum has not gone past the largest tick, the
    wake time is the entry tick plus [n] periods, consecutive wake times
    differ by exactly the period, and the wake time does not decrease. *)
Theorem wake_time_advances_by_period
    (cfg : Kernel.Config) (code : Kernel.task_code) (now : Z) (n : nat) :
  0 < Kernel.tick_bits cfg ->
  0 <= now < 2 ^ Kernel.tick_bits cfg ->
  Sched.wake cfg code now (S n)
  = (Sched.wake cfg code now n + Sched.xBlockTime cfg code)
      mod 2 ^ Kernel.tick_bits cfg /\
  Sched.wake cfg code now n
  = (now + Z.of_nat n * Sched.xBlockTime cfg code)
      mod 2 ^ Kernel.tick_bits cfg /\
  map fst (Sched.console (Sched.run_task cfg code now n))
  = map (Sched.wake cfg code now) (seq 1 n) /\
  (now + Z.of_nat (S n) * Sched.xBlockTime cfg code
   < 2 ^ Kernel.tick_bits cfg ->
   Sched.wake cfg code now n
   = now + Z.of_nat n * Sched.xBlockTime cfg code /\
   Sched.wake cfg code now (S n)
   = Sched.wake cfg code now n + Sched.xBlockTime cfg code /\
   Sched.wake cfg code now n <= Sched.wake cfg code now (S n)).
Proof.
  intros Hw Hnow.
  pose proof (xBlockTime_range cfg code Hw) as HP.
  split; [apply wake_S|].
  split; [now apply wake_closed_form|].
  split; [apply console_ticks|].
  intros Hfit.
  rewrite !wake_closed_form by assumption.
  assert (0 <= Z.of_nat n * Sched.xBlockTime cfg code) by nia.
  rewrite !Z.mod_small by nia.
  repeat split; nia.
Qed.

Lemma wake_time_advances_by_period_witness :
  0 < Kernel.tick_bits Sched.config32 /\
  0 <= 1000 < 2 ^ Kernel.tick_bits Sched.config32 /\
  Sched.wake Sched.config32 Kernel.CodeTask4 1000 3
  = (1000 + Z.of_nat 3 * Sched.xBlockTime Sched.config32 Kernel.CodeTask4)
      mod 2 ^ Kernel.tick_bits Sched.config32.
Proof.
  assert (Hw : 0 < Kernel.tick_bits Sched.config32) by reflexivity.
  assert (Hn : 0 <= 1000 < 2 ^ Kernel.tick_bits Sched.config32)
    by (vm_compute; split; congruence).
  split; [exact Hw|]. split; [exact Hn|].
  exact (proj1 (proj2 (wake_time_advances_by_period
                         Sched.config32 Kernel.CodeTask4 1000 3 Hw Hn))).
Defined.

(** * Further properties of the code *)

(** ** [binarySearch] on arrays of any order *)

Section LoopAnyOrder.
Import Search.
Variables (arr : list Z) (target : Z).

(** The interval at entry, for every [int] but [INT_MIN]. *)
Lemma binarySearch_entry (size : Z) :
  C.INT_MIN < size <= C.INT_MAX ->
  binarySearch arr size target =
  while_loop (Z.to_nat size) arr target 0 (size - 1).
Proof.
  intros H. pose proof INT_MAX_value. pose proof INT_MIN_value.
  unfold binarySearch.
  rewrite int_in_range by lia.
  replace (size - 1 - 0 + 1) with size by lia. reflexivity.
Qed.

(** Inside the array the loop reads inside the array, and the only value
    it returns is 0. *)
Lemma while_loop_in_bounds (fuel : nat) :
  forall left right,
    0 <= left -> right < C.INT_MAX ->
    right < Z.of_nat (List.length arr) ->
    right - left + 1 <= Z.of_nat fuel ->
    while_loop fuel arr target left right = Returns 0 \/
    while_loop fuel arr target left right = FallsOffEnd.
Proof.
  induction fuel as [|fuel IH]; intros left right H0 Hr Hlen Hf; simpl.
  - destruct (Z.leb_spec left right); [lia | now right].
  - destruct (Z.leb_spec left right) as [Hlr|]; [|now right].
    pose proof (middle_between left right Hlr) as Hm.
    rewrite loop_body_plain by assumption.
    destruct (index_in_bounds arr (middle left right)) as [a Ha]; [lia|].
    rewrite Ha.
    destruct (a =? target); [now left|].
    destruct (a <? target); apply IH; lia.
Qed.

(** A return comes from a position of the interval that holds the
    target. *)
Lemma while_loop_Returns (fuel : nat) :
  forall left right v,
    0 <= left -> right < C.INT_MAX ->
    while_loop fuel arr target left right = Returns v ->
    v = 0 /\ exists i, left <= i <= right /\ index arr i = Some target.
Proof.
  induction fuel as [|fuel IH]; intros left right v H0 Hr E; simpl in E.
  - destruct (left <=? right); discriminate E.
  - destruct (Z.leb_spec left right) as [Hlr|]; [|discriminate E].
    pose proof (middle_between left right Hlr) as Hm.
    rewrite loop_body_plain in E by assumption.
    destruct (index arr (middle left right)) as [a|] eqn:Ha;
      [|discriminate E].
    destruct (Z.eqb_spec a target) as [->|Hne].
    + injection E as <-. split; [reflexivity|].
      exists (middle left right). split; [lia | assumption].
    + destruct (a <? target);
        apply IH in E; try lia;
        destruct E as (-> & i & Hi & Hit);
        (split; [reflexivity|]); exists i; (split; [lia | assumption]).
Qed.

(** Halving: [k] passes are enough for an interval of fewer than [2^k]
    positions. *)
Lemma while_loop_halves (k : nat) :
  forall left right,
    0 <= left -> right < C.INT_MAX ->
    right - left + 1 < 2 ^ Z.of_nat k ->
    while_loop k arr target left right <> OutOfFuel.
Proof.
  induction k as [|k IH]; intros left right H0 Hr Hk; simpl.
  - change (2 ^ Z.of_nat 0) with 1 in Hk.
    destruct (Z.leb_spec left right); [lia | discriminate].
  - destruct (Z.leb_spec left right) as [Hlr|]; [|discriminate].
    pose proof (middle_between left right Hlr) as Hm.
    rewrite loop_body_plain by assumption.
    destruct (index arr (middle left right)) as [a|]; [|discriminate].
    destruct (a =? target); [discriminate|].
    rewrite Nat2Z.inj_succ, Z.pow_succ_r in Hk by lia.
    assert (Hd : right - left = 2 * ((right - left) / 2)
                                + (right - left) mod 2)
      by (apply Z.div_mod; lia).
    assert (Hb : 0 <= (right - left) mod 2 < 2)
      by (apply Z.mod_pos_bound; lia).
    unfold middle in *.
    destruct (a <? target); apply IH; lia.
Qed.

(** Positions below [size] read the same in the array and in its first
    [size] elements. *)
Lemma index_firstn (size i : Z) :
  0 <= i < size ->
  index (firstn (Z.to_nat size) arr) i = index arr i.
Proof.
  intros Hi. rewrite !index_nonneg by lia.
  rewrite nth_error_firstn.
  destruct (Nat.ltb_spec (Z.to_nat i) (Z.to_nat size)); [reflexivity | lia].
Qed.

Lemma while_loop_firstn (size : Z) (fuel : nat) :
  forall left right,
    0 <= left -> right < size -> size <= C.INT_MAX ->
    while_loop fuel (firstn (Z.to_nat size) arr) target left right =
    while_loop fuel arr target left right.
Proof.
  induction fuel as [|fuel IH]; intros left right H0 Hr Hs; simpl.
  - reflexivity.
  - destruct (Z.leb_spec left right) as [Hlr|]; [|reflexivity].
    pose proof (middle_between left right Hlr) as Hm.
    rewrite !loop_body_plain by lia.
    rewrite index_firstn by lia.
    destruct (index arr (middle left right)) as [a|]; [|reflexivity].
    destruct (a =? target); [reflexivity|].
    destruct (a <? target); apply IH; lia.
Qed.
End LoopAnyOrder.

(** X1.  Called with a size that is at most the length of the array,
    [binarySearch] never reads outside the array, and its only outcomes
    are the return value 0 and the end of the function without a
    [return]; the array need not be sorted. *)
Theorem binarySearch_stays_in_bounds (arr : list Z) (size target : Z) :
  C.INT_MIN < size <= C.INT_MAX ->
  size <= Z.of_nat (List.length arr) ->
  Search.binarySearch arr size target = Search.Returns 0 \/
  Search.binarySearch arr size target = Search.FallsOffEnd.
Proof.
  intros Hsize Hlen. pose proof INT_MAX_value.
  rewrite binarySearch_entry by assumption.
  apply while_loop_in_bounds; lia.
Qed.

Lemma binarySearch_stays_in_bounds_witness :
  Search.binarySearch [9; 1; 5; 3] 3 5 = Search.Returns 0 \/
  Search.binarySearch [9; 1; 5; 3] 3 5 = Search.FallsOffEnd.
Proof.
  apply (binarySearch_stays_in_bounds [9; 1; 5; 3] 3 5).
  - rewrite INT_MIN_value, INT_MAX_value. lia.
  - simpl. lia.
Defined.

(** X2.  Whatever the order of the array, a call that returns returns 0
    and the target sits at a position below [size]. *)
Theorem binarySearch_return_means_present
    (arr : list Z) (size target v : Z) :
  C.INT_MIN < size <= C.INT_MAX ->
  Search.binarySearch arr size target = Search.Returns v ->
  v = 0 /\
  exists i, 0 <= i < size /\ Search.index arr i = Some target.
Proof.
  intros Hsize E. pose proof INT_MAX_value.
  rewrite binarySearch_entry in E by assumption.
  apply while_loop_Returns in E; try lia.
  destruct E as (-> & i & Hi & Hit).
  split; [reflexivity|]. exists i. split; [lia | assumption].
Qed.

Lemma binarySearch_return_means_present_witness :
  exists i, 0 <= i < 4 /\ Search.index [9; 1; 5; 3] i = Some 1.
Proof.
  assert (Hsize : C.INT_MIN < 4 <= C.INT_MAX)
    by (rewrite INT_MIN_value, INT_MAX_value; lia).
  assert (E : Search.binarySearch [9; 1; 5; 3] 4 1 = Search.Returns 0)
    by (vm_compute; reflexivity).
  exact (proj2 (binarySearch_return_means_present
                  [9; 1; 5; 3] 4 1 0 Hsize E)).
Defined.

(** X3.  With a size of 0 or a negative size the loop is not entered: the
    array is not read and the call ends without a [return], whatever the
    array and the target. *)
Theorem binarySearch_empty (arr : list Z) (size target : Z) :
  C.INT_MIN < size <= 0 ->
  Search.binarySearch arr size target = Search.FallsOffEnd.
Proof.
  intros Hsize. pose proof INT_MAX_value.
  rewrite binarySearch_entry by lia.
  destruct (Z.to_nat size); simpl;
    destruct (Z.leb_spec 0 (size - 1)); (lia || reflexivity).
Qed.

Lemma binarySearch_empty_witness :
  Search.binarySearch [] 0 15 = Search.FallsOffEnd /\
  Search.binarySearch Search.elements (-3) 15 = Search.FallsOffEnd.
Proof.
  split.
  - apply (binarySearch_empty [] 0 15).
    rewrite INT_MIN_value. lia.
  - apply (binarySearch_empty Search.elements (-3) 15).
    rewrite INT_MIN_value. lia.
Defined.

(** X4.  Only the first [size] elements of the array count: the call
    gives what it gives on the array cut down to them, so what lies at
    position [size] and beyond is never read. *)
Theorem binarySearch_reads_first_size (arr : list Z) (size target : Z) :
  0 <= size <= C.INT_MAX ->
  Search.binarySearch arr size target =
  Search.binarySearch (firstn (Z.to_nat size) arr) size target.
Proof.
  intros Hsize. pose proof INT_MIN_value.
  rewrite !binarySearch_entry by lia.
  symmetry. apply while_loop_firstn; lia.
Qed.

Lemma binarySearch_reads_first_size_witness :
  Search.binarySearch Search.elements 4 15 =
  Search.binarySearch [2; 4; 7; 12] 4 15.
Proof.
  apply (binarySearch_reads_first_size Search.elements 4 15).
  rewrite INT_MAX_value. lia.
Defined.

(** X5.  The search is logarithmic: for a size below [2^k], [k] passes
    through the loop are all the call makes, and 31 passes are enough
    for every size an [int] holds. *)
Theorem binarySearch_logarithmic
    (arr : list Z) (size target : Z) (k : nat) :
  0 <= size <= C.INT_MAX ->
  size < 2 ^ Z.of_nat k ->
  Search.while_loop k arr target 0 (size - 1)
  = Search.binarySearch arr size target /\
  Search.while_loop 31 arr target 0 (size - 1)
  = Search.binarySearch arr size target.
Proof.
  intros Hsize Hk. pose proof INT_MAX_value. pose proof INT_MIN_value.
  rewrite binarySearch_entry by lia.
  assert (Hfull : Search.while_loop (Z.to_nat size) arr target 0 (size - 1)
                  <> Search.OutOfFuel)
    by (apply while_loop_fuel; lia).
  assert (Hany : forall j : nat,
             size < 2 ^ Z.of_nat j ->
             Search.while_loop j arr target 0 (size - 1)
             = Search.while_loop (Z.to_nat size) arr target 0 (size - 1)).
  { intros j Hj.
    assert (Hlog : Search.while_loop j arr target 0 (size - 1)
                   <> Search.OutOfFuel)
      by (apply while_loop_halves; lia).
    destruct (Nat.le_ge_cases j (Z.to_nat size)) as [Hle|Hge].
    - symmetry. now apply while_loop_more_fuel.
    - now apply while_loop_more_fuel. }
  split; [now apply Hany|].
  apply Hany. change (2 ^ Z.of_nat 31) with 2147483648. lia.
Qed.

Lemma binarySearch_logarithmic_witness :
  Search.while_loop 6 Search.elements 15 0 (50 - 1)
  = Search.binarySearch Search.elements 50 15.
Proof.
  refine (proj1 (binarySearch_logarithmic Search.elements 50 15 6 _ _)).
  - rewrite INT_MAX_value. lia.
  - simpl. lia.
Defined.

(** X6.  The middle position is computed without overflow: for every
    interval [0 <= left <= right < INT_MAX] the position read is
    [(left + right) / 2], also where [left + right] itself does not fit
    an [int], and the next interval ends right beside it. *)
Theorem loop_body_reads_the_midpoint
    (arr : list Z) (target left right : Z) :
  0 <= left -> left <= right -> right < C.INT_MAX ->
  Search.loop_body arr target left right =
  match Search.index arr ((left + right) / 2) with
  | None => Search.BadIndex
  | Some a =>
      if a =? target then Search.Return 0
      else if a <? target then Search.Next ((left + right) / 2 + 1) right
      else Search.Next left ((left + right) / 2 - 1)
  end.
Proof.
  intros H0 Hlr Hr.
  rewrite loop_body_plain by assumption.
  replace (Search.middle left right) with ((left + right) / 2);
    [reflexivity|].
  unfold Search.middle.
  replace (left + right) with (left * 2 + (right - left)) by lia.
  apply Z.div_add_l. lia.
Qed.

Lemma loop_body_reads_the_midpoint_witness :
  C.INT_MAX < 2000000000 + 2147483000 /\
  Search.loop_body [1; 2; 3] 2 2000000000 2147483000 = Search.BadIndex.
Proof.
  split; [rewrite INT_MAX_value; lia|].
  rewrite (loop_body_reads_the_midpoint [1; 2; 3] 2 2000000000 2147483000).
  - reflexivity.
  - lia.
  - lia.
  - rewrite INT_MAX_value. lia.
Defined.

(** X7.  On a sorted array whose length is the size, the call tells
    whether the target occurs and nothing more: it returns 0 when the
    target is in the array and ends without a [return] when it is not. *)
Theorem binarySearch_decides_membership
    (arr : list Z) (size target : Z) :
  Sorted Z.le arr ->
  size = Z.of_nat (List.length arr) ->
  size <= C.INT_MAX ->
  Search.binarySearch arr size target =
  if existsb (Z.eqb target) arr then Search.Returns 0
  else Search.FallsOffEnd.
Proof.
  intros HS Hsize Hmax.
  destruct (existsb (Z.eqb target) arr) eqn:E.
  - apply existsb_exists in E. destruct E as (x & Hin & Hx).
    apply Z.eqb_eq in Hx. subst x.
    destruct (In_index arr target Hin) as (i & Hi & Hit).
    rewrite binarySearch_unfold by lia.
    apply while_loop_present; try lia; [assumption|].
    exists i. split; [lia | assumption].
  - apply binarySearch_absent; try assumption.
    intros Hin.
    assert (existsb (Z.eqb target) arr = true)
      by (apply existsb_exists; exists target;
          split; [assumption | apply Z.eqb_refl]).
    congruence.
Qed.

Lemma binarySearch_decides_membership_witness :
  Search.binarySearch [1; 3; 3; 8] 4 3 = Search.Returns 0 /\
  Search.binarySearch [1; 3; 3; 8] 4 5 = Search.FallsOffEnd.
Proof.
  assert (HS : Sorted Z.le [1; 3; 3; 8])
    by (repeat (constructor; try lia)).
  assert (Hmax : 4 <= C.INT_MAX) by (rewrite INT_MAX_value; lia).
  split.
  - exact (binarySearch_decides_membership [1; 3; 3; 8] 4 3
             HS eq_refl Hmax).
  - exact (binarySearch_decides_membership [1; 3; 3; 8] 4 5
             HS eq_refl Hmax).
Defined.

(** ** Startup, whatever the kernel grants *)

(** X8.  [ipsa_sched] never returns to its caller, from whatever state it
    is called in: control ends in the running scheduler or in the idle
    loop, and it is the running scheduler exactly when the queue was
    created and [vTaskStartScheduler] got the scheduler going. *)
Theorem ipsa_sched_never_returns
    (cfg : Kernel.Config) (env : Kernel.Env) (s : Kernel.System) :
  fst (Sched.ipsa_sched cfg env s) = Kernel.NeverReturns /\
  Kernel.where_ (snd (Sched.ipsa_sched cfg env s)) =
    if Kernel.queue_available env && Kernel.scheduler_available env
    then Kernel.SchedulerRunning else Kernel.IdleLoop.
Proof.
  destruct env as [qa ta tk sa].
  unfold Sched.ipsa_sched, Kernel.bind, Kernel.xQueueCreate,
    Kernel.xTimerCreate, Kernel.xTaskCreate, Kernel.vTaskStartScheduler,
    Sched.set_xQueue, Sched.set_xTimer, Kernel.xTimerStart, Sched.idle_loop,
    Kernel.ret.
  cbn [Kernel.queue_available Kernel.timer_available Kernel.task_available
       Kernel.scheduler_available].
  destruct qa; [|split; reflexivity].
  destruct ta, (tk Kernel.CodeTask1), (tk Kernel.CodeTask2),
    (tk Kernel.CodeTask3), (tk Kernel.CodeTask4), sa; split; reflexivity.
Qed.

(** X9.  The results of the four [xTaskCreate] calls are not looked at.
    Once the queue exists, what [ipsa_sched] asks of the kernel and where
    control ends are the same whichever of the task creations succeed:
    the four creations are asked for, in the order Task1 to Task4, and
    [vTaskStartScheduler] is called after them.  Only the tasks that
    exist afterwards differ: they are those whose creation succeeded. *)
Theorem task_creation_results_ignored
    (cfg : Kernel.Config) (env env' : Kernel.Env) :
  Kernel.queue_available env = true ->
  Kernel.queue_available env' = true ->
  Kernel.timer_available env' = Kernel.timer_available env ->
  Kernel.scheduler_available env' = Kernel.scheduler_available env ->
  Kernel.calls (Sched.startup cfg env')
  = Kernel.calls (Sched.startup cfg env) /\
  Kernel.where_ (Sched.startup cfg env')
  = Kernel.where_ (Sched.startup cfg env) /\
  Kernel.xQueue (Sched.startup cfg env')
  = Kernel.xQueue (Sched.startup cfg env) /\
  Kernel.xTimer (Sched.startup cfg env')
  = Kernel.xTimer (Sched.startup cfg env) /\
  (exists before : list Kernel.call,
      Kernel.calls (Sched.startup cfg env) =
      before
      ++ [Kernel.CallTaskCreate Kernel.CodeTask1 "Task1"
            (Kernel.configMINIMAL_STACK_SIZE cfg)
            (Kernel.tskIDLE_PRIORITY cfg + 1);
          Kernel.CallTaskCreate Kernel.CodeTask2 "Task2"
            (Kernel.configMINIMAL_STACK_SIZE cfg)
            (Kernel.tskIDLE_PRIORITY cfg + 2);
          Kernel.CallTaskCreate Kernel.CodeTask3 "Task3"
            (Kernel.configMINIMAL_STACK_SIZE cfg)
            (Kernel.tskIDLE_PRIORITY cfg + 3);
          Kernel.CallTaskCreate Kernel.CodeTask4 "Task4"
            (Kernel.configMINIMAL_STACK_SIZE cfg)
            (Kernel.tskIDLE_PRIORITY cfg + 4);
          Kernel.CallStartScheduler]) /\
  map Kernel.task_body (Kernel.tasks (Sched.startup cfg env)) =
    filter (Kernel.task_available env)
      [Kernel.CodeTask1; Kernel.CodeTask2; Kernel.CodeTask3;
       Kernel.CodeTask4].
Proof.
  intros Hq Hq' Ht Hs.
  rewrite !startup_calls, !startup_where, !startup_xQueue, !startup_xTimer,
    startup_tasks.
  rewrite Hq, Hq', Ht, Hs.
  do 4 (split; [reflexivity|]).
  split.
  - destruct (Kernel.timer_available env); eexists;
      rewrite app_assoc; reflexivity.
  - cbn [filter Kernel.task_body].
    destruct (Kernel.task_available env Kernel.CodeTask1),
      (Kernel.task_available env Kernel.CodeTask2),
      (Kernel.task_available env Kernel.CodeTask3),
      (Kernel.task_available env Kernel.CodeTask4); reflexivity.
Qed.

(** Every creation granted against Task1 granted and the other three
    refused: the same calls, and the scheduler runs in both. *)
Lemma task_creation_results_ignored_witness :
  Kernel.calls
    (Sched.startup Sched.config32
       {| Kernel.queue_available := true; Kernel.timer_available := true;
          Kernel.task_available :=
            fun code =>
              match code with Kernel.CodeTask1 => true | _ => false end;
          Kernel.scheduler_available := true |})
  = Kernel.calls (Sched.startup Sched.config32 Sched.all_available) /\
  Kernel.where_
    (Sched.startup Sched.config32
       {| Kernel.queue_available := true; Kernel.timer_available := true;
          Kernel.task_available :=
            fun code =>
              match code with Kernel.CodeTask1 => true | _ => false end;
          Kernel.scheduler_available := true |})
  = Kernel.where_ (Sched.startup Sched.config32 Sched.all_available).
Proof.
  destruct (task_creation_results_ignored Sched.config32
              Sched.all_available
              {| Kernel.queue_available := true;
                 Kernel.timer_available := true;
                 Kernel.task_available :=
                   fun code =>
                     match code with
                     | Kernel.CodeTask1 => true
                     | _ => false
                     end;
                 Kernel.scheduler_available := true |}
              eq_refl eq_refl eq_refl eq_refl)
    as (Hcalls & Hwhere & _).
  split; [exact Hcalls | exact Hwhere].
Defined.

(** X10.  The tasks that exist after startup are those of Task1 to Task4
    whose creation succeeded, in that order; their priorities rise
    strictly in the order of creation and all lie above the idle
    priority, so no two tasks share a priority and Task4, when it exists,
    has the highest. *)
Theorem startup_task_priorities_rise
    (cfg : Kernel.Config) (env : Kernel.Env) :
  map Kernel.task_body (Kernel.tasks (Sched.startup cfg env)) =
    (if Kernel.queue_available env
     then filter (Kernel.task_available env)
            [Kernel.CodeTask1; Kernel.CodeTask2; Kernel.CodeTask3;
             Kernel.CodeTask4]
     else []) /\
  StronglySorted Z.lt
    (map Kernel.priority (Kernel.tasks (Sched.startup cfg env))) /\
  Forall (fun t => Kernel.tskIDLE_PRIORITY cfg < Kernel.priority t)
    (Kernel.tasks (Sched.startup cfg env)).
Proof.
  rewrite startup_tasks.
  destruct (Kernel.queue_available env).
  - cbn [filter Kernel.task_body].
    destruct (Kernel.task_available env Kernel.CodeTask1),
      (Kernel.task_available env Kernel.CodeTask2),
      (Kernel.task_available env Kernel.CodeTask3),
      (Kernel.task_available env Kernel.CodeTask4);
      cbn [map Kernel.task_body Kernel.priority];
      (split; [reflexivity|]); split;
      repeat (constructor; cbn [Kernel.priority]; try lia).
  - split; [reflexivity|]. split; constructor.
Qed.

(** ** The timer and the queue over time *)

Section Saturation.
Import Kernel.

Lemma apply_ops_snoc (q : Queue) (ops : list queue_op) (op : queue_op) :
  apply_ops q (ops ++ [op]) = apply_op (apply_ops q ops) op.
Proof. unfold apply_ops. rewrite fold_left_app. reflexivity. Qed.

(** [n] sends of the timer's value on the new queue. *)
Lemma timer_sends_fill (n : nat) :
  apply_ops (new_queue 4 4) (repeat (OpSend 200 0) n) =
  {| capacity := 4; item_size := 4; items := repeat 200 (Nat.min n 4) |}.
Proof.
  induction n as [|n IH]; [reflexivity|].
  cbn [repeat]. rewrite repeat_cons, apply_ops_snoc, IH.
  destruct (Nat.lt_ge_cases n 4) as [Hlt|Hge].
  - do 4 (destruct n as [|n]; [reflexivity|]). lia.
  - rewrite (Nat.min_r n 4), (Nat.min_r (S n) 4) by lia. reflexivity.
Qed.

Lemma timer_send_status (n : nat) :
  fst (send {| capacity := 4; item_size := 4;
               items := repeat 200 (Nat.min n 4) |} 200 0)
  = if (n <? 4)%nat then Success else FailedImmediately.
Proof.
  destruct (Nat.ltb_spec n 4) as [Hlt|Hge].
  - do 4 (destruct n as [|n]; [reflexivity|]). lia.
  - rewrite (Nat.min_r n 4) by lia. reflexivity.
Qed.
End Saturation.

(** X11.  Nothing in the file takes values out of the queue, so the timer
    fills it: after [n] expiries the queue holds [min n 4] copies of the
    timer's value 200 and nothing else, the first four sends succeed and
    every later one fails at once. *)
Theorem queue_saturates_after_four_expiries
    (cfg : Kernel.Config) (env : Kernel.Env) (n : nat) :
  Kernel.queue_available env = true ->
  Kernel.xQueue (Sched.expiries n (Sched.startup cfg env)) =
    Some {| Kernel.capacity := 4; Kernel.item_size := 4;
            Kernel.items := repeat 200 (Nat.min n 4) |} /\
  Kernel.calls (Sched.expiries n (Sched.startup cfg env)) =
    Kernel.calls (Sched.startup cfg env)
    ++ map (fun k : nat =>
              Kernel.CallQueueSend 200 0
                (if (k <? 4)%nat then Kernel.Success
                 else Kernel.FailedImmediately))
         (seq 0 n).
Proof.
  intros Ha.
  assert (Hq : forall m : nat,
             Kernel.xQueue (Sched.expiries m (Sched.startup cfg env)) =
             Some {| Kernel.capacity := 4; Kernel.item_size := 4;
                     Kernel.items := repeat 200 (Nat.min m 4) |}).
  { intros m. rewrite <- timer_sends_fill. apply expiries_queue.
    rewrite startup_xQueue, Ha. reflexivity. }
  split; [apply Hq|].
  induction n as [|n IH].
  - cbn [seq map]. rewrite app_nil_r. reflexivity.
  - change (Sched.expiries (S n) (Sched.startup cfg env))
      with (snd (Sched.prvQueueSendTimerCallback
                   (Sched.expiries n (Sched.startup cfg env)))).
    rewrite (callback_run _ _ (Hq n)).
    cbn [snd Kernel.record Kernel.with_queue Kernel.calls].
    rewrite IH, timer_send_status, seq_S, map_app, app_assoc.
    reflexivity.
Qed.

Lemma queue_saturates_after_four_expiries_witness :
  Kernel.xQueue (Sched.expiries 7 (Sched.startup Sched.config32
                                     Sched.all_available)) =
  Some {| Kernel.capacity := 4; Kernel.item_size := 4;
          Kernel.items := [200; 200; 200; 200] |}.
Proof.
  exact (proj1 (queue_saturates_after_four_expiries
                  Sched.config32 Sched.all_available 7 eq_refl)).
Defined.
